(** * glTFComp: the Blender export add-on [scripts/gltfcmp.py]

    A shallow embedding of the add-on's three functions, [extract_data],
    [get_texture_data] and [EXPORT_SCENE_OT_compgltf.execute], together with
    the theorems that relate them to the written specification.

    The host application (Blender's [bpy], [bmesh], [numpy], [os]) is not
    part of the add-on: its answers are data of the model (the records of
    section "Scene collaborator") and its side effects are events of a
    trace. *)

From Stdlib Require Import ZArith QArith Qabs Qround Bool Lia.
From Stdlib Require Import Floats.SpecFloat.
From stdpp Require Import base option list strings.

Local Open Scope string_scope.
Local Open Scope list_scope.
Local Open Scope Z_scope.

(** ** Floating-point data

    Floats are values of Stdlib's [spec_float]; the helpers of [SF] hold
    for every format. *)

Module SF.

(** The exact rational value of a finite float (0 for the others). *)
Definition to_Q (x : spec_float) : Q :=
  match x with
  | S754_finite s m e =>
      if (0 <=? e)%Z then inject_Z (cond_Zopp s (Z.pos m * 2 ^ e))
      else Qmake (cond_Zopp s (Z.pos m)) (Z.to_pos (2 ^ (- e)))
  | _ => 0%Q
  end.

(** Truncation toward zero, the integer part a C cast keeps. *)
Definition trunc (x : spec_float) : option Z :=
  match x with
  | S754_zero _ => Some 0
  | S754_finite s m e => Some (cond_Zopp s (Z.shiftl (Z.pos m) e))
  | S754_infinity _ | S754_nan => None
  end.

End SF.

(** IEEE 754 binary32, the element type of the [np.float32] arrays. *)

Module F32.

Definition prec : Z := 24.
Definition emax : Z := 128.

(** A well-formed binary32 datum. *)
Definition valid (x : spec_float) : bool := valid_binary prec emax x.

(** [a * b] on [np.float32]: correctly rounded, ties to even. *)
Definition mul (a b : spec_float) : spec_float := SFmul prec emax a b.

Definition zero : spec_float := S754_zero false.
Definition one : spec_float := S754_finite false 8388608 (-23).
(** The Python integer [255] as a binary32 value. *)
Definition of_255 : spec_float := S754_finite false 16711680 (-16).

Definition leb (a b : spec_float) : bool := SFleb a b.

(** [.astype(np.uint8)] on one element: the C conversion of a float to an
    unsigned byte.  It truncates toward zero when the truncated value is
    in 0..255; otherwise C leaves the result undefined and the platform
    decides ([undef], reduced to a byte). *)
Definition astype_uint8 (undef : spec_float -> Z) (x : spec_float) : Z :=
  match SF.trunc x with
  | Some z => if (0 <=? z) && (z <=? 255) then z else undef x mod 256
  | None => undef x mod 256
  end.

End F32.

(** ** Scene collaborator: what the host hands to the add-on *)

Definition vec3 : Type := spec_float * spec_float * spec_float.
Definition vec2 : Type := spec_float * spec_float.

(** Python exceptions, by the only distinction the add-on makes:
    [except ImportError] against everything else. *)
Inductive exn : Type :=
| ImportError (msg : string)
| ValueError (msg : string)
| HostError (msg : string).

Inductive result (A : Type) : Type :=
| Ok (a : A)
| Raise (e : exn).
Arguments Ok {A} a.
Arguments Raise {A} e.

(** [bpy.types.Image] *)
Record Image : Type := {
  img_name : string;
  img_filepath : string;
  img_packed_file : bool;            (* [img.packed_file] is not [None] *)
  img_size : nat * nat;              (* (width, height) *)
  img_channels : nat;
  img_pixels : list spec_float       (* flat float buffer *)
}.

(** A node of a material's node tree. *)
Record Node : Type := {
  node_type : string;
  node_image : option Image
}.

(** [bpy.types.Material]; [mat_metallic] and [mat_roughness] are [None]
    when the object has no such attribute ([getattr] with a default). *)
Record Material : Type := {
  mat_name : string;
  mat_diffuse_color : list spec_float;
  mat_metallic : option spec_float;
  mat_roughness : option spec_float;
  mat_use_nodes : bool;
  mat_nodes : list Node
}.

(** The evaluated mesh as it stands after the host has triangulated it and
    computed split normals and loop triangles (lines 32-39).  Vertex
    indices of a loop triangle are host [int]s in [0, 2^31), so the
    conversion to [np.uint32] keeps them as they are. *)
Record Mesh : Type := {
  mesh_vertices : list vec3;               (* [v.co] for v in mesh.vertices *)
  mesh_loops : list vec3;                  (* [loop.normal] for loop in mesh.loops *)
  mesh_loop_triangles : list (N * N * N);  (* [tri.vertices] *)
  mesh_uv_layers : option (list vec2);     (* data of the active layer; [None] when there is no layer *)
  mesh_materials : list (option Material)  (* material slots, [None] for an empty slot *)
}.

(** [bpy.types.Object].  [obj_mesh] is the outcome of the host calls inside
    the [try] block of [extract_data]: the prepared mesh, or the exception
    one of them raises. *)
Record Object : Type := {
  obj_name : string;
  obj_type : string;
  obj_mesh : result Mesh;
  obj_data_materials : list (option Material)   (* [obj.data.materials] *)
}.

Record Context : Type := {
  selected_objects : list Object;
  scene_objects : list Object
}.

(** ** Records built by the add-on *)

(** One entry of the [materials] list (a dict with four keys). *)
Record MaterialRecord : Type := {
  mr_name : string;
  mr_base_color : list spec_float;
  mr_metallic : spec_float;
  mr_roughness : spec_float
}.

(** The dict returned by [extract_data]. *)
Record MeshData : Type := {
  md_vertices : list vec3;
  md_normals : list vec3;
  md_indices : list N;
  md_uvs : option (list vec2);
  md_materials : list MaterialRecord;
  md_name : string
}.

(** The [tex] dict of [get_texture_data]: its ['type'] key is the tag. *)
Inductive Texture : Type :=
| TexFile (path name : string)
| TexPacked (name : string) (width height channels : nat)
            (data : list (list (list Z))).

(** The nine arguments of [m.ReadBlenderData]. *)
Record BackendArgs : Type := {
  ba_mesh_data : MeshData;
  ba_export_folder : string;
  ba_filepath : string;
  ba_textures : list Texture;
  ba_use_draco : bool;
  ba_draco_level : Z;
  ba_use_jpeg : bool;
  ba_jpeg_quality : Z;
  ba_use_zip : bool
}.

(** The host calls [execute] makes, as the events of a trace. *)
Inductive event : Type :=
| EvReport (level msg : string)
| EvMakedirs (folder : string)
| EvToMesh (obj : string)
| EvToMeshClear (obj : string)
| EvReadBlenderData (args : BackendArgs).

(** The compiled module [glTFCompL]: its entry point returns ([None]) or
    raises.  The outcome may depend on the arguments and on everything
    that has happened before the call (files of earlier calls, say), which
    is why it takes the trace of earlier events. *)
Definition Backend : Type := list event -> BackendArgs -> option exn.

(** Everything outside the add-on that [execute] reaches. *)
Record Host : Type := {
  load_glTFCompL_module : result Backend;
  os_path_dirname : string -> string;
  os_makedirs : string -> option exn;
  bpy_path_abspath : string -> string;
  os_path_normpath : string -> string;
  cast_undefined : spec_float -> Z
}.

(** ** Effects: the monad of traces and exceptions *)

Definition M (A : Type) : Type := list event -> result A * list event.

#[export] Instance M_ret : MRet M := fun _ a tr => (Ok a, tr).
#[export] Instance M_bind : MBind M := fun _ _ k c tr =>
  match c tr with
  | (Ok a, tr') => k a tr'
  | (Raise e, tr') => (Raise e, tr')
  end.

#[export] Instance result_ret : MRet result := fun _ a => Ok a.
#[export] Instance result_bind : MBind result := fun _ _ k c =>
  match c with
  | Ok a => k a
  | Raise e => Raise e
  end.

Definition emit (ev : event) : M unit := fun tr => (Ok tt, tr ++ [ev]).
Definition lift {A} (r : result A) : M A := fun tr => (r, tr).

(** [try: body finally: fin] *)
Definition try_finally {A} (body : M A) (fin : M unit) : M A := fun tr =>
  let '(r, tr') := body tr in
  match fin tr' with
  | (Ok _, tr'') => (r, tr'')
  | (Raise e, tr'') => (Raise e, tr'')
  end.

(** A host call that returns nothing or raises. *)
Definition host_call (ev : event) (outcome : option exn) : M unit :=
  emit ev ;;
  match outcome with
  | None => mret tt
  | Some e => lift (Raise e)
  end.

(** ** Operator properties (lines 119-157)

    [bpy.props.IntProperty(min=, max=)] declares a hard range: the host
    stores an assigned value clamped to it. *)

Record IntProperty : Type := {
  ip_default : Z;
  ip_min : Z;
  ip_max : Z
}.

Definition draco_level_prop : IntProperty :=
  {| ip_default := 5; ip_min := 1; ip_max := 9 |}.

Definition jpeg_quality_prop : IntProperty :=
  {| ip_default := 75; ip_min := 1; ip_max := 100 |}.

Definition int_prop_store (p : IntProperty) (v : Z) : Z :=
  if v <? ip_min p then ip_min p
  else if ip_max p <? v then ip_max p
  else v.

(** The operator instance [self], as [execute] reads it. *)
Record Operator : Type := {
  filepath : string;
  export_selected : bool;
  use_draco : bool;
  draco_level : Z;
  use_jpeg : bool;
  jpeg_quality : Z;
  use_zip : bool
}.

(** The user-facing settings of one export, before the host stores them. *)
Record Settings : Type := {
  set_filepath : string;
  set_export_selected : bool;
  set_use_draco : bool;
  set_draco_level : Z;
  set_use_jpeg : bool;
  set_jpeg_quality : Z;
  set_use_zip : bool
}.

(** The operator after the host has assigned the settings to its
    properties. *)
Definition operator_of (s : Settings) : Operator :=
  {| filepath := set_filepath s;
     export_selected := set_export_selected s;
     use_draco := set_use_draco s;
     draco_level := int_prop_store draco_level_prop (set_draco_level s);
     use_jpeg := set_use_jpeg s;
     jpeg_quality := int_prop_store jpeg_quality_prop (set_jpeg_quality s);
     use_zip := set_use_zip s |}.

Inductive status : Type := FINISHED | CANCELLED.

(** ** [extract_data] (lines 25-71) *)

(** [getattr(mat, "metallic", 0.0)] and [getattr(mat, "roughness", 0.5)];
    Python floats are binary64. *)
Definition default_metallic : spec_float := S754_zero false.
Definition default_roughness : spec_float := S754_finite false 4503599627370496 (-53).

(** The dict appended for one material (lines 53-58). *)
Definition material_record (mat : Material) : MaterialRecord :=
  {| mr_name := mat_name mat;
     mr_base_color := take 3 (mat_diffuse_color mat);
     mr_metallic := default default_metallic (mat_metallic mat);
     mr_roughness := default default_roughness (mat_roughness mat) |}.

(** The loop of lines 50-58, with [materials] as the accumulator. *)
Fixpoint collect_materials (slots : list (option Material))
    (materials : list MaterialRecord) : list MaterialRecord :=
  match slots with
  | [] => materials
  | Some mat :: rest => collect_materials rest (materials ++ [material_record mat])
  | None :: rest => collect_materials rest materials
  end.

(** [np.array([tri.vertices for tri in ...], dtype=np.uint32).flatten()] *)
Definition flatten_triangles (tris : list (N * N * N)) : list N :=
  tris ≫= (fun '(a, b, c) => [a; b; c]).

(** Lines 41-67: the record built from the prepared mesh. *)
Definition mesh_record (obj : Object) (mesh : Mesh) : MeshData :=
  {| md_vertices := mesh_vertices mesh;
     md_normals := mesh_loops mesh;
     md_indices := flatten_triangles (mesh_loop_triangles mesh);
     md_uvs := mesh_uv_layers mesh;
     md_materials := collect_materials (mesh_materials mesh) [];
     md_name := obj_name obj |}.

Definition extract_data (obj : Object) : M (option MeshData) :=
  emit (EvToMesh (obj_name obj)) ;;
  if String.eqb (obj_type obj) "MESH" then
    try_finally
      (mesh ← lift (obj_mesh obj);
       mret (Some (mesh_record obj mesh)))
      (emit (EvToMeshClear (obj_name obj)))
  else mret None.

(** ** [get_texture_data] (lines 73-107) *)

(** A flat buffer cut into [count] consecutive pieces of [size] elements
    (row-major order). *)
Definition chunks {A} (count size : nat) (l : list A) : list (list A) :=
  reshape (replicate count size) l.

(** [pixels.reshape((height, width, channels))]: a [ValueError] unless the
    buffer holds exactly height*width*channels elements. *)
Definition reshape3 {A} (height width channels : nat) (l : list A)
    : result (list (list (list A))) :=
  if (length l =? height * width * channels)%nat then
    Ok (chunks width channels <$> chunks height (width * channels)%nat l)
  else Raise (ValueError "cannot reshape array").

(** [(pixels * 255).astype(np.uint8)] on one element. *)
Definition pixel_to_uint8 (h : Host) (v : spec_float) : Z :=
  F32.astype_uint8 (cast_undefined h) (F32.mul v F32.of_255).

(** The same on a (height, width, channels) array. *)
Definition astype_uint8_array (h : Host) (pixels : list (list (list spec_float)))
    : list (list (list Z)) :=
  fmap (M:=list) (fmap (M:=list) (fmap (M:=list) (pixel_to_uint8 h))) pixels.

(** Lines 82-104: the [tex] dict for one image; [None] is the dict left
    empty. *)
Definition texture_of_image (h : Host) (img : Image) : result (option Texture) :=
  if negb (String.eqb (img_filepath img) "") then
    let abs_path := bpy_path_abspath h (img_filepath img) in
    Ok (Some (TexFile (os_path_normpath h abs_path) (img_name img)))
  else if img_packed_file img then
    let '(width, height) := img_size img in
    let channels := img_channels img in
    pixels ← reshape3 height width channels (img_pixels img);
    let pixels_uint8 := astype_uint8_array h pixels in
    Ok (Some (TexPacked (img_name img) width height channels pixels_uint8))
  else Ok None.

(** The loop over [mat.node_tree.nodes] (lines 80-106). *)
Fixpoint textures_of_nodes (h : Host) (nodes : list Node)
    (textures : list Texture) : result (list Texture) :=
  match nodes with
  | [] => Ok textures
  | node :: rest =>
      match (if String.eqb (node_type node) "TEX_IMAGE" then node_image node else None) with
      | Some img =>
          tex ← texture_of_image h img;
          match tex with
          | Some t => textures_of_nodes h rest (textures ++ [t])
          | None => textures_of_nodes h rest textures
          end
      | None => textures_of_nodes h rest textures
      end
  end.

(** The loop over [obj.data.materials] (lines 78-106). *)
Fixpoint textures_of_materials (h : Host) (mats : list (option Material))
    (textures : list Texture) : result (list Texture) :=
  match mats with
  | [] => Ok textures
  | Some mat :: rest =>
      if mat_use_nodes mat then
        textures' ← textures_of_nodes h (mat_nodes mat) textures;
        textures_of_materials h rest textures'
      else textures_of_materials h rest textures
  | None :: rest => textures_of_materials h rest textures
  end.

Definition get_texture_data (h : Host) (obj : Object) : result (list Texture) :=
  match obj_data_materials obj with
  | [] => Ok []
  | mats => textures_of_materials h mats []
  end.

(** ** [EXPORT_SCENE_OT_compgltf.execute] (lines 159-195) *)

Definition backend_args (self : Operator) (export_folder : string)
    (mesh_data : MeshData) (textures : list Texture) : BackendArgs :=
  {| ba_mesh_data := mesh_data;
     ba_export_folder := export_folder;
     ba_filepath := filepath self;
     ba_textures := textures;
     ba_use_draco := use_draco self;
     ba_draco_level := draco_level self;
     ba_use_jpeg := use_jpeg self;
     ba_jpeg_quality := jpeg_quality self;
     ba_use_zip := use_zip self |}.

(** [m.ReadBlenderData(...)] *)
Definition call_backend (m : Backend) (args : BackendArgs) : M unit := fun tr =>
  (match m tr args with None => Ok tt | Some e => Raise e end,
   tr ++ [EvReadBlenderData args]).

(** The body of the loop over the objects (lines 172-192).  The dict of
    [extract_data] has six keys, so [not mesh_data] holds for [None]
    only. *)
Definition export_object (h : Host) (m : Backend) (self : Operator)
    (export_folder : string) (obj : Object) : M unit :=
  if negb (String.eqb (obj_type obj) "MESH") then mret tt
  else
    mesh_data ← extract_data obj;
    match mesh_data with
    | None => mret tt
    | Some md =>
        textures ← lift (get_texture_data h obj);
        let args := backend_args self export_folder md textures in
        call_backend m args
    end.

Fixpoint export_objects (h : Host) (m : Backend) (self : Operator)
    (export_folder : string) (objects : list Object) : M unit :=
  match objects with
  | [] => mret tt
  | obj :: rest =>
      export_object h m self export_folder obj ;;
      export_objects h m self export_folder rest
  end.

Definition execute (h : Host) (self : Operator) (context : Context) : M status :=
  match load_glTFCompL_module h with
  | Raise (ImportError e) =>
      emit (EvReport "ERROR" ("Could not import glTFCompL: " +:+ e)) ;;
      mret CANCELLED
  | Raise e => lift (Raise e)
  | Ok m =>
      let objects :=
        if export_selected self then selected_objects context
        else scene_objects context in
      let export_folder := os_path_dirname h (filepath self) in
      host_call (EvMakedirs export_folder) (os_makedirs h export_folder) ;;
      export_objects h m self export_folder objects ;;
      emit (EvReport "INFO" ("Export complete: " +:+ filepath self)) ;;
      mret FINISHED
  end.

(** Observations on a finished run. *)
Definition run {A} (c : M A) : result A * list event := c [].

Definition backend_calls (tr : list event) : list BackendArgs :=
  omap (fun ev => match ev with EvReadBlenderData a => Some a | _ => None end) tr.

Definition reports (tr : list event) : list (string * string) :=
  omap (fun ev => match ev with EvReport l m => Some (l, m) | _ => None end) tr.

(** ** Observations used by the statements *)

(** [arr[y][x][k]] *)
Definition lookup3 {A} (arr : list (list (list A))) (y x k : nat) : option A :=
  arr !! y ≫= (fun row => row !! x ≫= (fun px => px !! k)).

Definition is_mesh (obj : Object) : bool := String.eqb (obj_type obj) "MESH".

(** The objects [execute] iterates over (line 167). *)
Definition exported_objects (self : Operator) (context : Context) : list Object :=
  if export_selected self then selected_objects context else scene_objects context.

(** The host calls [extract_data] makes for a mesh object. *)
Definition mesh_events (obj : Object) : list event :=
  [EvToMesh (obj_name obj); EvToMeshClear (obj_name obj)].

(** One backend call, as [export_object] issues it for a mesh object: the
    object's own record and textures with the operator's options. *)
Definition call_for (h : Host) (self : Operator) (obj : Object)
    (args : BackendArgs) : Prop :=
  exists mesh textures,
    obj_mesh obj = Ok mesh /\
    get_texture_data h obj = Ok textures /\
    args = backend_args self (os_path_dirname h (filepath self))
             (mesh_record obj mesh) textures.

(** The specification's wording of the backend contract: one call per
    export invocation. *)
Definition one_backend_call (h : Host) (self : Operator) (context : Context) : Prop :=
  length (backend_calls (snd (run (execute h self context)))) = 1%nat.

(** A mesh with no vertex or no triangle. *)
Definition empty_mesh (mesh : Mesh) : Prop :=
  mesh_vertices mesh = [] \/ mesh_loop_triangles mesh = [].

(** A mesh object the host can prepare and whose textures resolve. *)
Definition extractable (h : Host) (obj : Object) : Prop :=
  is_mesh obj = true /\
  exists mesh textures,
    obj_mesh obj = Ok mesh /\ get_texture_data h obj = Ok textures.

(** How [execute] ends once its loop has run (lines 194-195): the final
    report and FINISHED, unless the loop raised. *)
Definition conclude (self : Operator) (r : result unit * list event)
    : result status * list event :=
  match r with
  | (Ok _, tr) =>
      (Ok FINISHED, tr ++ [EvReport "INFO" ("Export complete: " +:+ filepath self)])
  | (Raise e, tr) => (Raise e, tr)
  end.

(** A warning reached the user. *)
Definition warning_reported (tr : list event) : Prop :=
  exists msg, ("WARNING", msg) ∈ reports tr.

(** The options of a backend call are the operator's. *)
Definition options_of (self : Operator) (args : BackendArgs) : Prop :=
  ba_filepath args = filepath self /\
  ba_use_draco args = use_draco self /\
  ba_draco_level args = draco_level self /\
  ba_use_jpeg args = use_jpeg self /\
  ba_jpeg_quality args = jpeg_quality self /\
  ba_use_zip args = use_zip self.




(** The attribute tuple of entry [i] of the vertex buffer when its normal
    and UV are those of loop [l]: position, normal, UV (absent when the
    mesh has no UV layer). *)
Definition attribute_tuple (md : MeshData) (i l : nat)
    : option vec3 * option vec3 * option vec2 :=
  (md_vertices md !! i, md_normals md !! l, md_uvs md ≫= (fun uvs => uvs !! l)).

(** The specification's wording of deduplication: distinct entries of the
    vertex buffer carry distinct tuples, with [loop_of] telling which loop
    an entry takes its normal and UV from. *)
Definition no_duplicate_tuples (md : MeshData) (loop_of : nat -> nat) : Prop :=
  forall i j : nat,
    (i < length (md_vertices md))%nat ->
    (j < length (md_vertices md))%nat ->
    i <> j ->
    attribute_tuple md i (loop_of i) <> attribute_tuple md j (loop_of j).

(** A material record that renders its material: name, the first three
    components of the diffuse colour, and metallic and roughness with
    their defaults 0.0 and 0.5 when the material lacks them. *)
Definition renders (mat : Material) (rec : MaterialRecord) : Prop :=
  mr_name rec = mat_name mat /\
  mr_base_color rec = take 3 (mat_diffuse_color mat) /\
  match mat_metallic mat with
  | Some v => mr_metallic rec = v
  | None => mr_metallic rec = default_metallic
  end /\
  match mat_roughness mat with
  | Some v => mr_roughness rec = v
  | None => mr_roughness rec = default_roughness
  end.

(** The specification's formula for a decoded byte,
    [round(clamp(float_value, 0, 1) * 255)], over the exact value of the
    float; [round] is any rounding to a nearest integer. *)
Definition Qclamp01 (q : Q) : Q :=
  if Qle_bool q 0 then 0%Q else if Qle_bool 1 q then 1%Q else q.

Definition nearest_integer (q : Q) (z : Z) : Prop :=
  (Qabs (q - inject_Z z) <= 1 # 2)%Q.

Definition spec_byte (v : spec_float) (b : Z) : Prop :=
  nearest_integer (Qclamp01 (SF.to_Q v) * 255) b.

(** ** Sample scenes *)

Module Sample.

Definition f0 : spec_float := S754_zero false.
Definition f1 : spec_float := F32.one.

Definition backend_ok : Backend := fun _ _ => None.

Definition host : Host :=
  {| load_glTFCompL_module := Ok backend_ok;
     os_path_dirname := fun _ => "/tmp/out";
     os_makedirs := fun _ => None;
     bpy_path_abspath := fun p => p;
     os_path_normpath := fun p => p;
     cast_undefined := fun _ => 0 |}.

Definition host_without_backend : Host :=
  {| load_glTFCompL_module := Raise (ImportError "No module named 'glTFCompL'");
     os_path_dirname := fun _ => "/tmp/out";
     os_makedirs := fun _ => None;
     bpy_path_abspath := fun p => p;
     os_path_normpath := fun p => p;
     cast_undefined := fun _ => 0 |}.

Definition self : Operator :=
  operator_of {| set_filepath := "/tmp/out/scene.gltf";
                 set_export_selected := false;
                 set_use_draco := true;
                 set_draco_level := 5;
                 set_use_jpeg := true;
                 set_jpeg_quality := 75;
                 set_use_zip := false |}.

(** One triangle in the plane z = 0. *)
Definition triangle : Mesh :=
  {| mesh_vertices := [(f0, f0, f0); (f1, f0, f0); (f0, f1, f0)];
     mesh_loops := [(f0, f0, f1); (f0, f0, f1); (f0, f0, f1)];
     mesh_loop_triangles := [(0%N, 1%N, 2%N)];
     mesh_uv_layers := None;
     mesh_materials := [] |}.

(** A mesh object with no geometry at all. *)
Definition no_geometry : Mesh :=
  {| mesh_vertices := [];
     mesh_loops := [];
     mesh_loop_triangles := [];
     mesh_uv_layers := None;
     mesh_materials := [] |}.

Definition mesh_object (name : string) (mesh : Mesh) : Object :=
  {| obj_name := name;
     obj_type := "MESH";
     obj_mesh := Ok mesh;
     obj_data_materials := [] |}.

Definition camera : Object :=
  {| obj_name := "Camera";
     obj_type := "CAMERA";
     obj_mesh := Raise (HostError "Object does not have geometry data");
     obj_data_materials := [] |}.

Definition scene (objects : list Object) : Context :=
  {| selected_objects := []; scene_objects := objects |}.

Definition two_meshes : Context :=
  scene [mesh_object "A" triangle; camera; mesh_object "B" triangle].

(** A triangle whose third corner names a vertex that does not exist. *)
Definition dangling : Mesh :=
  {| mesh_vertices := [(f0, f0, f0); (f1, f0, f0); (f0, f1, f0)];
     mesh_loops := [(f0, f0, f1); (f0, f0, f1); (f0, f0, f1)];
     mesh_loop_triangles := [(0%N, 1%N, 7%N)];
     mesh_uv_layers := None;
     mesh_materials := [] |}.

Definition malformed_then_good : Context :=
  scene [mesh_object "Bad" dangling; mesh_object "Good" triangle].

(** An object on which a host call of the [try] block raises. *)
Definition broken : Object :=
  {| obj_name := "Broken";
     obj_type := "MESH";
     obj_mesh := Raise (HostError "triangulate failed");
     obj_data_materials := [] |}.

Definition good_broken_good : Context :=
  scene [mesh_object "A" triangle; broken; mesh_object "B" triangle].

(** Two vertices at the same place, one shading normal, no UV layer. *)
Definition doubled_vertex : Mesh :=
  {| mesh_vertices := [(f0, f0, f0); (f0, f0, f0); (f1, f0, f0)];
     mesh_loops := [(f0, f0, f1); (f0, f0, f1); (f0, f0, f1)];
     mesh_loop_triangles := [(0%N, 1%N, 2%N)];
     mesh_uv_layers := None;
     mesh_materials := [] |}.

Definition red : Material :=
  {| mat_name := "Red";
     mat_diffuse_color := [f1; f0; f0; f1];
     mat_metallic := None;
     mat_roughness := None;
     mat_use_nodes := false;
     mat_nodes := [] |}.

Definition shiny : Material :=
  {| mat_name := "Shiny";
     mat_diffuse_color := [f1; f1; f1; f1];
     mat_metallic := Some f1;
     mat_roughness := Some f0;
     mat_use_nodes := false;
     mat_nodes := [] |}.

(** A triangle with three material slots, the middle one empty. *)
Definition painted : Mesh :=
  {| mesh_vertices := [(f0, f0, f0); (f1, f0, f0); (f0, f1, f0)];
     mesh_loops := [(f0, f0, f1); (f0, f0, f1); (f0, f0, f1)];
     mesh_loop_triangles := [(0%N, 1%N, 2%N)];
     mesh_uv_layers := None;
     mesh_materials := [Some red; None; Some shiny] |}.

(** An image that has a file path and packed data at once; its pixel
    buffer does not even fit its size. *)
Definition file_and_packed : Image :=
  {| img_name := "wood";
     img_filepath := "//textures/wood.png";
     img_packed_file := true;
     img_size := (2%nat, 2%nat);
     img_channels := 4%nat;
     img_pixels := [f1] |}.

Definition wood_node : Node :=
  {| node_type := "TEX_IMAGE"; node_image := Some file_and_packed |}.

Definition wood : Material :=
  {| mat_name := "Wood";
     mat_diffuse_color := [f1; f1; f1; f1];
     mat_metallic := Some f0;
     mat_roughness := Some f1;
     mat_use_nodes := true;
     mat_nodes := [{| node_type := "BSDF_PRINCIPLED"; node_image := None |}; wood_node] |}.

Definition plank : Object :=
  {| obj_name := "Plank";
     obj_type := "MESH";
     obj_mesh := Ok triangle;
     obj_data_materials := [None; Some wood] |}.

(** 0.3125 as a binary32 value: 5 * 2^21 * 2^-25. *)
Definition f0_3125 : spec_float := S754_finite false 10485760 (-25).

(** A packed 1x1 image with one channel. *)
Definition dot : Image :=
  {| img_name := "dot";
     img_filepath := "";
     img_packed_file := true;
     img_size := (1%nat, 1%nat);
     img_channels := 1%nat;
     img_pixels := [f0_3125] |}.

(** A packed image 3 wide, 2 high, 2 channels. *)
Definition strip : Image :=
  {| img_name := "strip";
     img_filepath := "";
     img_packed_file := true;
     img_size := (3%nat, 2%nat);
     img_channels := 2%nat;
     img_pixels := [f0; f1; f0_3125; f1; f0; f0; f1; f1; f0; f0_3125; f1; f0] |}.

Definition only_empty : Context :=
  scene [mesh_object "Empty" no_geometry].

End Sample.

(** ** Further observations on [execute] *)

(** The context with the non-mesh objects left out. *)
Definition mesh_only (context : Context) : Context :=
  {| selected_objects := filter (fun obj => is_mesh obj = true) (selected_objects context);
     scene_objects := filter (fun obj => is_mesh obj = true) (scene_objects context) |}.

(** A scan of a trace for the temporary meshes of [obj_eval.to_mesh()]:
    [held] is the mesh acquired and not yet cleared.  The scan accepts a
    trace in which a mesh is acquired only when none is held, is cleared
    under its own name, and no other host call (report, directory
    creation, backend call) happens while one is held; at the end none is
    held. *)
Fixpoint released (held : option string) (tr : list event) : bool :=
  match tr with
  | [] => match held with None => true | Some _ => false end
  | EvToMesh name :: rest =>
      match held with None => released (Some name) rest | Some _ => false end
  | EvToMeshClear name :: rest =>
      match held with
      | Some name' => String.eqb name name' && released None rest
      | None => false
      end
  | _ :: rest =>
      match held with None => released None rest | Some _ => false end
  end.

(** The options of a backend call, as the settings ask for them: the two
    integers brought to the nearest bound of their ranges. *)
Definition options_as_requested (s : Settings) (args : BackendArgs) : Prop :=
  ba_filepath args = set_filepath s /\
  ba_use_draco args = set_use_draco s /\
  ba_draco_level args = Z.max 1 (Z.min 9 (set_draco_level s)) /\
  ba_use_jpeg args = set_use_jpeg s /\
  ba_jpeg_quality args = Z.max 1 (Z.min 100 (set_jpeg_quality s)) /\
  ba_use_zip args = set_use_zip s.

(** ** The specification's wording of the option ranges *)




(** ** Further observations on [get_texture_data] *)

(** The images [get_texture_data] looks at: those of the image nodes of
    the node-using materials, in material order and then node order, each
    as often as it is reached. *)
Definition image_inputs_of_nodes (nodes : list Node) : list Image :=
  omap (fun node =>
          if String.eqb (node_type node) "TEX_IMAGE" then node_image node else None)
    nodes.

Definition image_inputs (obj : Object) : list Image :=
  obj_data_materials obj ≫= (fun slot =>
    match slot with
    | Some mat => if mat_use_nodes mat then image_inputs_of_nodes (mat_nodes mat) else []
    | None => []
    end).

(** The records of a list of images resolved one after the other: the
    first failure ends it, an image without source gives no record. *)
Fixpoint resolve_images (h : Host) (imgs : list Image) : result (list Texture) :=
  match imgs with
  | [] => Ok []
  | img :: rest =>
      match texture_of_image h img with
      | Raise e => Raise e
      | Ok tex =>
          match resolve_images h rest with
          | Raise e => Raise e
          | Ok texs => Ok (match tex with Some t => t :: texs | None => texs end)
          end
      end
  end.

(** An image with a file path or packed data. *)
Definition has_source (img : Image) : bool :=
  negb (String.eqb (img_filepath img) "") || img_packed_file img.

(** The bytes of a decoded array in buffer order. *)
Definition flatten3 {A} (arr : list (list (list A))) : list A := mjoin (mjoin arr).

(** ** The decoded byte in integer arithmetic *)

(** Rounding to nearest, ties to even, after [n] shifts: the quotient
    goes up by one exactly when the remainder is above half, or is half
    and the quotient is odd. *)
Definition rounds_up (M n : Z) : bool :=
  (2 ^ n <? 2 * (M mod 2 ^ n)) || ((2 * (M mod 2 ^ n) =? 2 ^ n) && Z.odd (M / 2 ^ n)).

(** The decoded byte of the stored float m * 2^e below 1, in integer
    arithmetic: the product 255 * m * 2^e, written M * 2^E, is shifted to
    the exponent e1 of its binade, rounded to nearest even, and cut to an
    integer. *)
Definition byte_of (m : positive) (e : Z) : Z :=
  let M := Z.pos m * 255 * 65536 in
  let E := e - 16 in
  let n := Z.max 0 (Z.max (Zdigits2 M + E - 24) (-149) - E) in
  let e1 := E + n in
  (M / 2 ^ n + (if rounds_up M n then 1 else 0)) / 2 ^ (- e1).

(** ** [load_glTFCompL_module] (lines 18-23) and [sys.path] *)

Module Loader.

(** The function with the interpreter's state made explicit: [sys_path]
    is [sys.path] before the call, [folderpath] the add-on's directory
    ([os.path.dirname(__file__)]), and [import_glTFCompL] the outcome of
    the [import] statement for the directories searched.  The result is
    the outcome of the call with [sys.path] after it. *)
Definition load_glTFCompL_module (folderpath : string)
    (import_glTFCompL : list string -> result Backend) (sys_path : list string)
    : result Backend * list string :=
  let sys_path' :=
    if bool_decide (folderpath ∈ sys_path) then sys_path
    else folderpath :: sys_path in
  (import_glTFCompL sys_path', sys_path').

End Loader.

(** ** [register] and [unregister] (lines 231-243) *)

Module Registration.

(** The host's side: the registered classes and the draw functions of
    the File > Export menu, both by name.  [bpy.utils.register_class]
    raises for a class that is registered already and
    [bpy.utils.unregister_class] for one that is not; a menu's [append]
    adds a draw function at the end, its [remove] takes the first
    occurrence out and does nothing when there is none. *)
Record Registry : Type := {
  classes : list string;
  file_export_menu : list string
}.

Definition EXPORT_SCENE_OT_compgltf : string := "EXPORT_SCENE_OT_compgltf".
Definition menu_func_export : string := "menu_func_export".

Fixpoint remove_first (x : string) (l : list string) : list string :=
  match l with
  | [] => []
  | y :: rest => if String.eqb x y then rest else y :: remove_first x rest
  end.

Definition register_class (cls : string) (r : Registry) : option exn * Registry :=
  if bool_decide (cls ∈ classes r)
  then (Some (ValueError "register_class: already registered"), r)
  else (None, {| classes := classes r ++ [cls];
                 file_export_menu := file_export_menu r |}).

Definition unregister_class (cls : string) (r : Registry) : option exn * Registry :=
  if bool_decide (cls ∈ classes r)
  then (None, {| classes := remove_first cls (classes r);
                 file_export_menu := file_export_menu r |})
  else (Some (HostError "RuntimeError: unregister_class: not registered"), r).

Definition menu_append (f : string) (r : Registry) : Registry :=
  {| classes := classes r; file_export_menu := file_export_menu r ++ [f] |}.

Definition menu_remove (f : string) (r : Registry) : Registry :=
  {| classes := classes r; file_export_menu := remove_first f (file_export_menu r) |}.

(** [register()]: the exception raised, if any, and the registry after
    the call. *)
Definition register (r : Registry) : option exn * Registry :=
  match register_class EXPORT_SCENE_OT_compgltf r with
  | (Some e, r') => (Some e, r')
  | (None, r') => (None, menu_append menu_func_export r')
  end.

(** [unregister()] *)
Definition unregister (r : Registry) : option exn * Registry :=
  unregister_class EXPORT_SCENE_OT_compgltf (menu_remove menu_func_export r).

End Registration.

(** ** Further sample scenes *)

Module Scenario.

(** A host on which the output directory cannot be made. *)
Definition read_only_host : Host :=
  {| load_glTFCompL_module := Ok Sample.backend_ok;
     os_path_dirname := fun _ => "/readonly/out";
     os_makedirs := fun _ => Some (HostError "PermissionError: /readonly/out");
     bpy_path_abspath := fun p => p;
     os_path_normpath := fun p => p;
     cast_undefined := fun _ => 0 |}.

(** A backend that fails on the object named B. *)
Definition backend_failing_on_B : Backend := fun _ args =>
  if String.eqb (md_name (ba_mesh_data args)) "B"
  then Some (HostError "RuntimeError: encoder failed")
  else None.

Definition host_failing_on_B : Host :=
  {| load_glTFCompL_module := Ok backend_failing_on_B;
     os_path_dirname := fun _ => "/tmp/out";
     os_makedirs := fun _ => None;
     bpy_path_abspath := fun p => p;
     os_path_normpath := fun p => p;
     cast_undefined := fun _ => 0 |}.

Definition three_meshes : Context :=
  Sample.scene [Sample.mesh_object "A" Sample.triangle;
                Sample.mesh_object "B" Sample.triangle;
                Sample.mesh_object "C" Sample.triangle].

(** Two triangles on four vertices. *)
Definition quad : Mesh :=
  {| mesh_vertices := [(Sample.f0, Sample.f0, Sample.f0); (Sample.f1, Sample.f0, Sample.f0);
                       (Sample.f1, Sample.f1, Sample.f0); (Sample.f0, Sample.f1, Sample.f0)];
     mesh_loops := [];
     mesh_loop_triangles := [(0%N, 1%N, 2%N); (0%N, 2%N, 3%N)];
     mesh_uv_layers := None;
     mesh_materials := [] |}.

(** An image without file path and without packed data. *)
Definition sourceless : Image :=
  {| img_name := "generated";
     img_filepath := "";
     img_packed_file := false;
     img_size := (4%nat, 4%nat);
     img_channels := 4%nat;
     img_pixels := [] |}.

Definition image_node (img : Image) : Node :=
  {| node_type := "TEX_IMAGE"; node_image := Some img |}.

Definition node_material (name : string) (nodes : list Node) : Material :=
  {| mat_name := name;
     mat_diffuse_color := [Sample.f1; Sample.f1; Sample.f1; Sample.f1];
     mat_metallic := Some Sample.f0;
     mat_roughness := Some Sample.f1;
     mat_use_nodes := true;
     mat_nodes := nodes |}.

(** Two materials that use the same packed image; the second also has an
    image without source. *)
Definition shared_image : Object :=
  {| obj_name := "Shared";
     obj_type := "MESH";
     obj_mesh := Ok Sample.triangle;
     obj_data_materials :=
       [Some (node_material "First" [image_node Sample.dot]);
        None;
        Some (node_material "Second" [image_node sourceless; image_node Sample.dot])] |}.

(** A packed image whose buffer is one value short of its 2x1x2 size. *)
Definition short_buffer : Image :=
  {| img_name := "short";
     img_filepath := "";
     img_packed_file := true;
     img_size := (2%nat, 1%nat);
     img_channels := 2%nat;
     img_pixels := [Sample.f0; Sample.f1; Sample.f0] |}.

(** A host registry with another add-on's exporter in place. *)
Definition other_addon : Registration.Registry :=
  {| Registration.classes := ["EXPORT_SCENE_OT_obj"];
     Registration.file_export_menu := ["menu_func_export_obj"] |}.

(** 0.5 as a binary32 value. *)
Definition f0_5 : spec_float := S754_finite false 8388608 (-24).


End Scenario.

(** * Proofs *)

(** ** [extract_data] on a mesh object *)

Ltac unfold_M :=
  repeat (unfold mbind, M_bind, mret, M_ret, try_finally, emit, lift, host_call, call_backend; simpl).

Lemma extract_data_mesh obj tr :
  is_mesh obj = true ->
  extract_data obj tr =
    (match obj_mesh obj with
     | Ok mesh => Ok (Some (mesh_record obj mesh))
     | Raise e => Raise e
     end, tr ++ mesh_events obj).
Proof.
  unfold is_mesh, extract_data, mesh_events. intros ->. unfold_M.
  destruct (obj_mesh obj); unfold_M; rewrite <- app_assoc; reflexivity.
Qed.

(** A non-mesh object gives [None], and its mesh is not released. *)
Example extract_data_camera :
  run (extract_data Sample.camera) = (Ok None, [EvToMesh "Camera"]).
Proof. reflexivity. Qed.

(** ** C7: the material list *)

Lemma collect_materials_acc slots : forall materials,
  collect_materials slots materials =
    materials ++ (material_record <$> omap id slots).
Proof.
  induction slots as [|[mat|] slots IH]; intros materials; cbn.
  - symmetry. apply app_nil_r.
  - rewrite IH, <- app_assoc. reflexivity.
  - apply IH.
Qed.

Lemma material_record_renders mat : renders mat (material_record mat).
Proof.
  unfold renders, material_record. cbn.
  destruct (mat_metallic mat), (mat_roughness mat); auto.
Qed.

Lemma default_values :
  (SF.to_Q default_metallic == 0)%Q /\ (SF.to_Q default_roughness == 1 # 2)%Q.
Proof. split; vm_compute; reflexivity. Qed.

(** C7. For a mesh object the [materials] list of the extracted record has
    exactly one record per non-empty material slot, in slot order; each
    record carries the material's name and base colour, its metallic and
    roughness when it has them and 0.0 and 0.5 when it has not; a mesh
    without material slots gives the empty list, and extraction does not
    fail. *)
Theorem C7_materials_in_slot_order obj mesh :
  is_mesh obj = true ->
  obj_mesh obj = Ok mesh ->
  exists md,
    fst (run (extract_data obj)) = Ok (Some md) /\
    Forall2 renders (omap id (mesh_materials mesh)) (md_materials md) /\
    (SF.to_Q default_metallic == 0)%Q /\
    (SF.to_Q default_roughness == 1 # 2)%Q /\
    (mesh_materials mesh = [] -> md_materials md = []).
Proof.
  intros Hm Hmesh. exists (mesh_record obj mesh). unfold run.
  rewrite (extract_data_mesh _ _ Hm), Hmesh. split; [reflexivity|].
  cbn [md_materials mesh_record]. rewrite collect_materials_acc, app_nil_l.
  split; [|split; [apply default_values|split; [apply default_values|]]].
  - apply Forall2_fmap_r, Forall_Forall2_diag, Forall_forall.
    intros mat _. apply material_record_renders.
  - intros ->. reflexivity.
Qed.

Lemma C7_materials_in_slot_order_witness :
  exists md,
    fst (run (extract_data (Sample.mesh_object "Painted" Sample.painted))) = Ok (Some md) /\
    Forall2 renders [Sample.red; Sample.shiny] (md_materials md) /\
    (SF.to_Q default_metallic == 0)%Q /\
    (SF.to_Q default_roughness == 1 # 2)%Q /\
    (mesh_materials Sample.painted = [] -> md_materials md = []).
Proof.
  apply (C7_materials_in_slot_order (Sample.mesh_object "Painted" Sample.painted)
           Sample.painted); reflexivity.
Defined.

(** ** C8: the index buffer *)






(** ** C9: duplicates in the vertex buffer *)

(** C9, as stated, fails: two host vertices at the same place, shaded by
    the same normal and without UV, stay two entries of the vertex
    buffer, whichever loops their normal and UV are read from. *)
Lemma C9_duplicate_vertices_kept :
  exists md,
    fst (run (extract_data (Sample.mesh_object "D" Sample.doubled_vertex))) = Ok (Some md) /\
    forall loop_of : nat -> nat,
      (forall i, (loop_of i < length (md_normals md))%nat) ->
      ~ no_duplicate_tuples md loop_of.
Proof.
  eexists. split; [vm_compute; reflexivity|].
  intros loop_of Hloop Hnodup.
  apply (Hnodup 0%nat 1%nat); [cbn; lia|cbn; lia|discriminate|].
  unfold attribute_tuple. cbn.
  pose proof (Hloop 0%nat) as H0. pose proof (Hloop 1%nat) as H1. cbn in H0, H1.
  destruct (loop_of 0%nat) as [|[|[|?]]]; [| | |lia];
    destruct (loop_of 1%nat) as [|[|[|?]]]; try lia; reflexivity.
Qed.

(** C9, amended. Extraction merges nothing: the vertex buffer is the list
    of the host mesh's vertex positions, one entry per mesh vertex in
    mesh order, the normals are the per-loop normals and the UVs the
    active layer's per-loop data (absent without a layer), all as the host
    gives them; so the vertex buffer is free of duplicates exactly when
    the host's vertex positions are. *)
Theorem C9_buffers_are_the_host_arrays obj mesh :
  is_mesh obj = true ->
  obj_mesh obj = Ok mesh ->
  exists md,
    fst (run (extract_data obj)) = Ok (Some md) /\
    md_vertices md = mesh_vertices mesh /\
    md_normals md = mesh_loops mesh /\
    md_uvs md = mesh_uv_layers mesh /\
    (NoDup (md_vertices md) <-> NoDup (mesh_vertices mesh)).
Proof.
  intros Hm Hmesh. exists (mesh_record obj mesh). unfold run.
  rewrite (extract_data_mesh _ _ Hm), Hmesh. cbn. tauto.
Qed.

Lemma C9_buffers_are_the_host_arrays_witness :
  exists md,
    fst (run (extract_data (Sample.mesh_object "D" Sample.doubled_vertex))) = Ok (Some md) /\
    md_vertices md = mesh_vertices Sample.doubled_vertex /\
    md_normals md = mesh_loops Sample.doubled_vertex /\
    md_uvs md = mesh_uv_layers Sample.doubled_vertex /\
    (NoDup (md_vertices md) <-> NoDup (mesh_vertices Sample.doubled_vertex)).
Proof.
  apply (C9_buffers_are_the_host_arrays (Sample.mesh_object "D" Sample.doubled_vertex)
           Sample.doubled_vertex); reflexivity.
Defined.

(** ** C10: a file path wins over packed data *)

(** The textures a node list adds to the accumulator; every image node
    whose image resolves to a record has that record among them. *)
Lemma textures_of_nodes_spec h nodes : forall textures res,
  textures_of_nodes h nodes textures = Ok res ->
  exists added,
    res = textures ++ added /\
    forall node img tex,
      node ∈ nodes ->
      node_type node = "TEX_IMAGE" ->
      node_image node = Some img ->
      texture_of_image h img = Ok (Some tex) ->
      tex ∈ added.
Proof.
  induction nodes as [|node nodes IH]; intros textures res Hres.
  - injection Hres as <-. exists []. split; [symmetry; apply app_nil_r|].
    intros ? ? ? Hin. inversion Hin.
  - cbn [textures_of_nodes] in Hres.
    destruct (String.eqb_spec (node_type node) "TEX_IMAGE") as [Hty|Hty].
    + destruct (node_image node) as [img|] eqn:Himg.
      * unfold mbind, result_bind in Hres.
        destruct (texture_of_image h img) as [[t|]|e] eqn:Htex; [| |discriminate].
        -- destruct (IH _ _ Hres) as (added & -> & Hadded).
           exists (t :: added). split; [rewrite <- app_assoc; reflexivity|].
           intros node' img' tex' Hin Hty' Himg' Htex'.
           apply elem_of_cons in Hin as [->|Hin].
           ++ assert (img' = img) as -> by congruence.
              assert (tex' = t) as -> by congruence. left.
           ++ right. eapply Hadded; eassumption.
        -- destruct (IH _ _ Hres) as (added & -> & Hadded).
           exists added. split; [reflexivity|].
           intros node' img' tex' Hin Hty' Himg' Htex'.
           apply elem_of_cons in Hin as [->|Hin].
           ++ congruence.
           ++ eapply Hadded; eassumption.
      * destruct (IH _ _ Hres) as (added & -> & Hadded).
        exists added. split; [reflexivity|].
        intros node' img' tex' Hin Hty' Himg' Htex'.
        apply elem_of_cons in Hin as [->|Hin]; [congruence|].
        eapply Hadded; eassumption.
    + destruct (IH _ _ Hres) as (added & -> & Hadded).
      exists added. split; [reflexivity|].
      intros node' img' tex' Hin Hty' Himg' Htex'.
      apply elem_of_cons in Hin as [->|Hin]; [congruence|].
      eapply Hadded; eassumption.
Qed.

Lemma textures_of_materials_spec h mats : forall textures res,
  textures_of_materials h mats textures = Ok res ->
  exists added,
    res = textures ++ added /\
    forall mat node img tex,
      Some mat ∈ mats ->
      mat_use_nodes mat = true ->
      node ∈ mat_nodes mat ->
      node_type node = "TEX_IMAGE" ->
      node_image node = Some img ->
      texture_of_image h img = Ok (Some tex) ->
      tex ∈ added.
Proof.
  induction mats as [|[mat|] mats IH]; intros textures res Hres.
  - injection Hres as <-. exists []. split; [symmetry; apply app_nil_r|].
    intros ? ? ? ? Hin. inversion Hin.
  - cbn [textures_of_materials] in Hres.
    destruct (mat_use_nodes mat) eqn:Huse.
    + unfold mbind, result_bind in Hres.
      destruct (textures_of_nodes h (mat_nodes mat) textures) as [mid|e] eqn:Hnodes;
        [|discriminate].
      destruct (textures_of_nodes_spec _ _ _ _ Hnodes) as (added1 & -> & Hadded1).
      destruct (IH _ _ Hres) as (added2 & -> & Hadded2).
      exists (added1 ++ added2). split; [rewrite app_assoc; reflexivity|].
      intros mat' node img tex Hin Huse' Hnode Hty Himg Htex.
      apply elem_of_app. apply elem_of_cons in Hin as [Heq|Hin].
      * injection Heq as ->. left. eapply Hadded1; eassumption.
      * right. eapply Hadded2; eassumption.
    + destruct (IH _ _ Hres) as (added & -> & Hadded).
      exists added. split; [reflexivity|].
      intros mat' node img tex Hin Huse' Hnode Hty Himg Htex.
      apply elem_of_cons in Hin as [Heq|Hin].
      * injection Heq as ->. congruence.
      * eapply Hadded; eassumption.
  - cbn [textures_of_materials] in Hres.
    destruct (IH _ _ Hres) as (added & -> & Hadded).
    exists added. split; [reflexivity|].
    intros mat' node img tex Hin Huse' Hnode Hty Himg Htex.
    apply elem_of_cons in Hin as [Heq|Hin]; [discriminate|].
    eapply Hadded; eassumption.
Qed.

Lemma get_texture_data_elem h obj textures mat node img tex :
  get_texture_data h obj = Ok textures ->
  Some mat ∈ obj_data_materials obj ->
  mat_use_nodes mat = true ->
  node ∈ mat_nodes mat ->
  node_type node = "TEX_IMAGE" ->
  node_image node = Some img ->
  texture_of_image h img = Ok (Some tex) ->
  tex ∈ textures.
Proof.
  unfold get_texture_data. intros Hres Hmat.
  destruct (obj_data_materials obj) as [|slot slots] eqn:Hslots; [inversion Hmat|].
  destruct (textures_of_materials_spec _ _ _ _ Hres) as (added & -> & Hadded).
  intros. cbn. eapply Hadded; eassumption.
Qed.

(** C10. An image with a non-empty file path resolves to a file record
    holding the normalised absolute path and the image name, whether or
    not it also has packed data: its size, channel count and pixel buffer
    are not read (two images that agree on name and path resolve alike,
    and no reshape error can arise), and that record is among the textures
    of every object that reaches the image through an image node of one of
    its node-using materials. *)
Theorem C10_file_path_before_packed h img :
  img_filepath img <> "" ->
  let file_ref :=
    TexFile (os_path_normpath h (bpy_path_abspath h (img_filepath img))) (img_name img) in
  texture_of_image h img = Ok (Some file_ref) /\
  (forall img',
     img_name img' = img_name img ->
     img_filepath img' = img_filepath img ->
     texture_of_image h img' = texture_of_image h img) /\
  (forall obj mat node textures,
     get_texture_data h obj = Ok textures ->
     Some mat ∈ obj_data_materials obj ->
     mat_use_nodes mat = true ->
     node ∈ mat_nodes mat ->
     node_type node = "TEX_IMAGE" ->
     node_image node = Some img ->
     file_ref ∈ textures).
Proof.
  intros Hpath file_ref.
  assert (forall img', img_filepath img' = img_filepath img ->
            texture_of_image h img' =
              Ok (Some (TexFile (os_path_normpath h (bpy_path_abspath h (img_filepath img')))
                          (img_name img')))) as Hfile.
  { intros img' Heq. unfold texture_of_image.
    destruct (String.eqb_spec (img_filepath img') "") as [Hempty|_]; [congruence|].
    reflexivity. }
  split; [apply Hfile; reflexivity|]. split.
  - intros img' Hname Hsame. rewrite (Hfile img' Hsame), (Hfile img eq_refl), Hname, Hsame.
    reflexivity.
  - intros obj mat node textures Hres Hmat Huse Hnode Hty Himg.
    eapply get_texture_data_elem; try eassumption. apply Hfile. reflexivity.
Qed.

Lemma C10_file_path_before_packed_witness :
  img_packed_file Sample.file_and_packed = true /\
  get_texture_data Sample.host Sample.plank =
    Ok [TexFile "//textures/wood.png" "wood"] /\
  TexFile "//textures/wood.png" "wood" ∈ [TexFile "//textures/wood.png" "wood"].
Proof.
  split; [reflexivity|]. split; [reflexivity|].
  assert (img_filepath Sample.file_and_packed <> "") as Hpath by discriminate.
  destruct (C10_file_path_before_packed Sample.host Sample.file_and_packed Hpath)
    as (_ & _ & Hin).
  apply (Hin Sample.plank Sample.wood Sample.wood_node).
  - reflexivity.
  - right. left.
  - reflexivity.
  - right. left.
  - reflexivity.
  - reflexivity.
Defined.

(** ** binary32: the product with 255 and its truncation *)

Lemma digits2_pos_size p : digits2_pos p = Pos.size p.
Proof. induction p; cbn; congruence. Qed.

Lemma Zdigits2_upper m : 0 <= m -> m < 2 ^ Zdigits2 m.
Proof.
  destruct m as [|p|p]; intros Hm; [cbn; lia| |lia].
  cbn [Zdigits2]. rewrite digits2_pos_size.
  pose proof (Pos.size_gt p) as H. apply Pos2Z.pos_lt_pos in H.
  rewrite Pos2Z.inj_pow in H. exact H.
Qed.

Lemma Zdigits2_lower m : 0 < m -> 2 ^ Zdigits2 m <= 2 * m.
Proof.
  destruct m as [|p|p]; intros Hm; [lia| |lia].
  cbn [Zdigits2]. rewrite digits2_pos_size.
  pose proof (Pos.size_le p) as H. apply Pos2Z.pos_le_pos in H.
  rewrite Pos2Z.inj_pow in H. exact H.
Qed.

Lemma Zdigits2_nonneg m : 0 <= Zdigits2 m.
Proof. destruct m; cbn; lia. Qed.

(** m < 2^k entails digits m <= k *)
Lemma Zdigits2_le m k : 0 <= m -> 0 <= k -> m < 2 ^ k -> Zdigits2 m <= k.
Proof.
  intros Hm Hk Hlt. destruct (Z.eq_dec m 0) as [->|Hne]; [cbn; lia|].
  pose proof (Zdigits2_lower m ltac:(lia)) as Hlo.
  pose proof (Zdigits2_nonneg m) as Hd.
  destruct (Z.le_gt_cases (Zdigits2 m) k) as [|Hgt]; [assumption|exfalso].
  assert (2 ^ (k + 1) <= 2 ^ Zdigits2 m) by (apply Z.pow_le_mono_r; lia).
  rewrite Z.pow_add_r in H by lia. lia.
Qed.

Lemma shr_1_m mrs : 0 <= shr_m mrs -> shr_m (shr_1 mrs) = shr_m mrs / 2.
Proof.
  destruct mrs as [m r s]. cbn [shr_m]. intros Hm.
  rewrite <- Z.div2_div.
  destruct m as [|[p|p|]|p]; cbn; try reflexivity; lia.
Qed.

Lemma pow2_xO p : 2 ^ Z.pos p~0 = 2 ^ Z.pos p * 2 ^ Z.pos p.
Proof. replace (Z.pos p~0) with (Z.pos p + Z.pos p) by lia. apply Z.pow_add_r; lia. Qed.

Lemma pow2_xI p : 2 ^ Z.pos p~1 = 2 * (2 ^ Z.pos p * 2 ^ Z.pos p).
Proof.
  replace (Z.pos p~1) with (1 + (Z.pos p + Z.pos p)) by lia.
  rewrite !Z.pow_add_r by lia. reflexivity.
Qed.

Lemma iter_pos_shr_m p : forall mrs,
  0 <= shr_m mrs ->
  shr_m (SpecFloat.iter_pos shr_1 p mrs) = shr_m mrs / 2 ^ Z.pos p.
Proof.
  induction p as [p IH|p IH|]; intros mrs Hm; cbn [SpecFloat.iter_pos].
  - assert (0 <= shr_m (shr_1 mrs)) as H1.
    { rewrite shr_1_m by assumption. apply Z.div_pos; lia. }
    assert (0 <= shr_m (SpecFloat.iter_pos shr_1 p (shr_1 mrs))) as H2.
    { rewrite IH by assumption. apply Z.div_pos; lia. }
    rewrite IH, IH, shr_1_m by assumption.
    rewrite !Z.div_div by lia. rewrite pow2_xI. reflexivity.
  - assert (0 <= shr_m (SpecFloat.iter_pos shr_1 p mrs)) as H2.
    { rewrite IH by assumption. apply Z.div_pos; lia. }
    rewrite IH, IH by assumption.
    rewrite !Z.div_div by lia. rewrite pow2_xO. reflexivity.
  - rewrite shr_1_m by assumption. reflexivity.
Qed.

Lemma shr_spec mrs e n :
  0 <= shr_m mrs ->
  shr_m (fst (shr mrs e n)) = shr_m mrs / 2 ^ Z.max 0 n /\
  snd (shr mrs e n) = e + Z.max 0 n.
Proof.
  intros Hm. destruct n as [|p|p]; cbn [shr fst snd].
  - rewrite Z.div_1_r. split; [reflexivity|lia].
  - rewrite iter_pos_shr_m by assumption. split; [reflexivity|lia].
  - rewrite Z.div_1_r. split; [reflexivity|lia].
Qed.

Lemma round_nearest_even_range m l : m <= round_nearest_even m l <= m + 1.
Proof.
  destruct l as [|[| |]]; cbn [round_nearest_even]; try lia.
  destruct (Z.even m); lia.
Qed.

Lemma shr_m_of_loc m l : shr_m (shr_record_of_loc m l) = m.
Proof. destruct l as [|[| |]]; reflexivity. Qed.

Lemma binary_round_aux_spec prec emax mx ex lx :
  0 <= mx ->
  exists m1 m1' m2 e1 e2,
    e1 = ex + Z.max 0 (fexp prec emax (Zdigits2 mx + ex) - ex) /\
    m1 = mx / 2 ^ (e1 - ex) /\
    m1 <= m1' <= m1 + 1 /\
    e2 = e1 + Z.max 0 (fexp prec emax (Zdigits2 m1' + e1) - e1) /\
    m2 = m1' / 2 ^ (e2 - e1) /\
    binary_round_aux prec emax false mx ex lx =
      match m2 with
      | Z0 => S754_zero false
      | Zpos m => if e2 <=? emax - prec then S754_finite false m e2 else S754_infinity false
      | Zneg _ => S754_nan
      end.
Proof.
  intros Hmx. unfold binary_round_aux, shr_fexp.
  pose proof (shr_spec (shr_record_of_loc mx lx) ex
                (fexp prec emax (Zdigits2 mx + ex) - ex)) as H1.
  rewrite shr_m_of_loc in H1. specialize (H1 Hmx).
  destruct (shr (shr_record_of_loc mx lx) ex _) as [mrs' e'].
  cbn [fst snd] in H1. destruct H1 as [Hm1 He1].
  set (m1' := round_nearest_even (shr_m mrs') (loc_of_shr_record mrs')).
  pose proof (round_nearest_even_range (shr_m mrs') (loc_of_shr_record mrs')) as Hr.
  fold m1' in Hr.
  assert (0 <= shr_m mrs') as Hm1pos by (rewrite Hm1; apply Z.div_pos; lia).
  pose proof (shr_spec (shr_record_of_loc m1' loc_Exact) e'
                (fexp prec emax (Zdigits2 m1' + e') - e')) as H2.
  rewrite shr_m_of_loc in H2. specialize (H2 ltac:(lia)).
  destruct (shr (shr_record_of_loc m1' loc_Exact) e' _) as [mrs'' e''].
  cbn [fst snd] in H2. destruct H2 as [Hm2 He2].
  exists (shr_m mrs'), m1', (shr_m mrs''), e', e''.
  repeat split; try lia.
  - rewrite Hm1, He1. f_equal. f_equal. lia.
  - rewrite Hm2, He2. f_equal. f_equal. lia.
Qed.

Lemma mul_255_below_one m e :
  bounded 24 128 m e = true ->
  e <= -24 ->
  exists z,
    0 <= z <= 255 /\
    match SFmul 24 128 (S754_finite false m e) F32.of_255 with
    | S754_zero _ => z = 0
    | S754_finite s m2 e2 => s = false /\ z = Z.shiftl (Z.pos m2) e2
    | _ => False
    end.
Proof.
  intros Hb He. unfold bounded, canonical_mantissa in Hb.
  apply andb_prop in Hb as [Hcanon _]. apply Z.eqb_eq in Hcanon.
  unfold fexp, emin in Hcanon.
  assert (Z.pos m < 2 ^ 24) as Hm.
  { pose proof (Zdigits2_upper (Z.pos m) ltac:(lia)) as Hup. cbn [Zdigits2] in Hup.
    assert (Z.pos (digits2_pos m) <= 24) by lia.
    eapply Z.lt_le_trans; [exact Hup|]. apply Z.pow_le_mono_r; lia. }
  unfold F32.of_255. cbn [SFmul xorb].
  destruct (binary_round_aux_spec 24 128 (Z.pos (m * 16711680)) (e + -16) loc_Exact
              ltac:(lia)) as (m1 & m1' & m2 & e1 & e2 & He1 & Hm1 & Hr & He2 & Hm2 & ->).
  set (M := Z.pos (m * 16711680)) in *. set (E := e + -16) in *.
  assert (M = Z.pos m * 16711680) as HM by reflexivity.
  unfold fexp, emin in He1, He2.
  assert (0 < 2 ^ (- e - 24)) as Hpe by (apply Z.pow_pos_nonneg; lia).
  (* the exact product is below 255 *)
  assert (M < 255 * 2 ^ (- E)) as HME.
  { replace (- E) with (24 + (16 + (- e - 24))) by (unfold E; lia).
    rewrite !Z.pow_add_r by lia. change (2 ^ 16) with 65536 in *.
    change (2 ^ 24) with 16777216 in *. nia. }
  assert (Zdigits2 M <= 48) as HdM.
  { apply Zdigits2_le; [lia|lia|]. change (2 ^ 48) with (16777216 * 16777216).
    change (2 ^ 24) with 16777216 in Hm. nia. }
  assert (E <= e1 <= -16) as He1b by (unfold E in *; lia).
  assert (m1 < 255 * 2 ^ (- e1)) as Hm1b.
  { rewrite Hm1. apply Z.div_lt_upper_bound; [apply Z.pow_pos_nonneg; lia|].
    replace (2 ^ (e1 - E) * (255 * 2 ^ (- e1))) with (255 * 2 ^ (- E)); [exact HME|].
    replace (- E) with ((e1 - E) + - e1) by lia.
    rewrite Z.pow_add_r by lia. ring. }
  assert (0 <= m1) as Hm1pos by (rewrite Hm1; apply Z.div_pos; [lia|apply Z.pow_pos_nonneg; lia]).
  assert (Zdigits2 m1' <= 8 - e1) as Hd'.
  { apply Zdigits2_le; [lia|lia|].
    replace (8 - e1) with (8 + - e1) by lia.
    rewrite Z.pow_add_r by lia. change (2 ^ 8) with 256.
    assert (0 < 2 ^ (- e1)) by (apply Z.pow_pos_nonneg; lia). lia. }
  assert (e1 <= e2 <= -16) as He2b by lia.
  assert (0 <= m2 <= 255 * 2 ^ (- e2)) as Hm2b.
  { rewrite Hm2. split; [apply Z.div_pos; [lia|apply Z.pow_pos_nonneg; lia]|].
    apply Z.div_le_upper_bound; [apply Z.pow_pos_nonneg; lia|].
    replace (2 ^ (e2 - e1) * (255 * 2 ^ (- e2))) with (255 * 2 ^ (- e1)); [lia|].
    replace (- e1) with ((e2 - e1) + - e2) by lia.
    rewrite Z.pow_add_r by lia. ring. }
  clearbody M E. clear Hm2.
  destruct m2 as [|p|p]; [exists 0; split; [lia|reflexivity]| |lia].
  destruct (Z.leb_spec e2 (128 - 24)) as [_|Hbig]; [|lia].
  exists (Z.shiftl (Z.pos p) e2). split; [|split; reflexivity].
  rewrite Z.shiftl_div_pow2 by lia. split.
  - apply Z.div_pos; [lia|apply Z.pow_pos_nonneg; lia].
  - apply Z.div_le_upper_bound; [apply Z.pow_pos_nonneg; lia|]. lia.
Qed.

(** ** Row-major layout of the reshaped pixel buffer *)

Lemma chunks_lookup {A} (l : list A) count size i :
  (0 < size)%nat -> length l = (count * size)%nat -> (i < count)%nat ->
  chunks count size l !! i = Some (take size (drop (i * size) l)).
Proof.
  intros Hsize Hlen Hi. unfold chunks.
  rewrite sublist_lookup_reshape by assumption.
  apply sublist_lookup_Some. rewrite Hlen.
  replace (i * size + size)%nat with (S i * size)%nat by lia.
  apply Nat.mul_le_mono_r. lia.
Qed.

Lemma chunks_shape {A} count size : forall (l : list A),
  length l = (count * size)%nat ->
  length (chunks count size l) = count /\
  Forall (fun c => length c = size) (chunks count size l).
Proof.
  unfold chunks. induction count as [|count IH]; intros l Hlen; cbn.
  - split; [reflexivity|constructor].
  - destruct (IH (drop size l)) as [Hl Hall].
    { rewrite length_drop. lia. }
    split; [rewrite Hl; reflexivity|]. constructor; [|exact Hall].
    rewrite length_take. lia.
Qed.

Lemma reshape_rows_lookup {A} (l : list A) h w c y x k :
  length l = (h * w * c)%nat -> (y < h)%nat -> (x < w)%nat -> (k < c)%nat ->
  lookup3 (chunks w c <$> chunks h (w * c) l) y x k = l !! ((y * w + x) * c + k)%nat.
Proof.
  intros Hlen Hy Hx Hk. unfold lookup3.
  rewrite list_lookup_fmap, (chunks_lookup l h (w * c) y) by (try lia; nia).
  cbn. set (row := take (w * c) (drop (y * (w * c)) l)).
  assert (length row = (w * c)%nat) as Hrow.
  { unfold row. rewrite length_take, length_drop. nia. }
  rewrite (chunks_lookup row w c x) by (try lia; nia). cbn.
  rewrite lookup_take_lt by lia. rewrite lookup_drop. unfold row.
  rewrite lookup_take_lt by nia. rewrite lookup_drop. f_equal. lia.
Qed.

(** ** C3: decoding a packed image *)

(** On a value that is not negative the truncation is the floor of the
    exact value. *)
Lemma trunc_floor x z :
  SF.trunc x = Some z ->
  match x with S754_finite true _ _ => False | _ => True end ->
  z = Qfloor (SF.to_Q x).
Proof.
  destruct x as [s|s| |[|] m e]; cbn [SF.trunc SF.to_Q]; intros Hz Hpos;
    try discriminate; try contradiction.
  - injection Hz as <-. reflexivity.
  - injection Hz as <-. cbn [cond_Zopp].
    destruct (Z.leb_spec 0 e) as [He|He].
    + rewrite Qfloor_Z. apply Z.shiftl_mul_pow2. exact He.
    + rewrite Z.shiftl_div_pow2 by lia. cbn [Qfloor].
      rewrite Z2Pos.id by (apply Z.pow_pos_nonneg; lia). reflexivity.
Qed.

(** A well-formed binary32 value between 0 and 1 is a zero, the float 1.0,
    or a positive float with an exponent of at most -24. *)
Lemma unit_interval_cases v :
  F32.valid v = true ->
  F32.leb F32.zero v = true ->
  F32.leb v F32.one = true ->
  (exists s, v = S754_zero s) \/
  v = F32.one \/
  (exists m e, v = S754_finite false m e /\ bounded 24 128 m e = true /\ e <= -24).
Proof.
  unfold F32.valid, F32.leb, SFleb, F32.zero, F32.one, F32.prec, F32.emax.
  destruct v as [s|[|]| |[|] m e]; cbn [valid_binary SFcompare];
    intros Hvalid H0 H1; try discriminate.
  - left. exists s. reflexivity.
  - right.
    destruct (Z.compare_spec e (-23)) as [He|He|He]; [|right|discriminate].
    + subst e. left.
      pose proof Hvalid as Hb. unfold bounded, canonical_mantissa in Hb.
      apply andb_prop in Hb as [Hcanon _]. apply Z.eqb_eq in Hcanon.
      unfold fexp, emin in Hcanon.
      assert (Z.pos (digits2_pos m) = 24) as Hd by lia.
      pose proof (Zdigits2_lower (Z.pos m) ltac:(lia)) as Hlo. cbn [Zdigits2] in Hlo.
      rewrite Hd in Hlo. change (2 ^ 24) with 16777216 in Hlo.
      assert (Z.pos m <= 8388608) as Hle.
      { apply Pos2Z.pos_le_pos.
        destruct (Pos.compare_cont Eq m 8388608) eqn:Hc; try discriminate.
        - apply Pos.compare_eq in Hc. rewrite Hc. apply Pos.le_refl.
        - unfold Pos.le, Pos.compare. rewrite Hc. discriminate. }
      assert (Z.pos m = 8388608) as Heq by lia.
      injection Heq as ->. reflexivity.
    + exists m, e. split; [reflexivity|]. split; [exact Hvalid|lia].
Qed.

(** On the unit interval the conversion to a byte is defined by the
    language alone: it is the floor of the binary32 product with 255 and
    lies in 0..255. *)
Lemma pixel_to_uint8_unit_interval h v :
  F32.valid v = true ->
  F32.leb F32.zero v = true ->
  F32.leb v F32.one = true ->
  pixel_to_uint8 h v = Qfloor (SF.to_Q (F32.mul v F32.of_255)) /\
  0 <= pixel_to_uint8 h v <= 255.
Proof.
  intros Hvalid H0 H1.
  destruct (unit_interval_cases v Hvalid H0 H1) as [[s ->]|[->|(m & e & -> & Hb & He)]].
  - assert (pixel_to_uint8 h (S754_zero s) = 0) as -> by (destruct s; reflexivity).
    split; [destruct s; reflexivity|lia].
  - assert (pixel_to_uint8 h F32.one = 255) as -> by (vm_compute; reflexivity).
    split; [vm_compute; reflexivity|lia].
  - unfold pixel_to_uint8, F32.astype_uint8, F32.mul.
    destruct (mul_255_below_one m e Hb He) as (z & Hz & Hmul).
    destruct (SFmul 24 128 (S754_finite false m e) F32.of_255) as [s|s| |s m2 e2] eqn:Hprod;
      try contradiction.
    + subst z. change F32.prec with 24. change F32.emax with 128. rewrite Hprod.
      cbn. split; [reflexivity|lia].
    + destruct Hmul as [-> ->]. change F32.prec with 24. change F32.emax with 128.
      rewrite Hprod.
      assert (SF.trunc (S754_finite false m2 e2) = Some (Z.shiftl (Z.pos m2) e2)) as Ht
        by reflexivity.
      rewrite Ht.
      replace ((0 <=? Z.shiftl (Z.pos m2) e2) && (Z.shiftl (Z.pos m2) e2 <=? 255))
        with true by (symmetry; apply andb_true_intro; split; apply Z.leb_le; lia).
      split; [|exact Hz]. apply trunc_floor; [exact Ht|exact I].
Qed.

Lemma reshape3_ok {A} height width channels (l : list A) :
  length l = (height * width * channels)%nat ->
  reshape3 height width channels l =
    Ok (chunks width channels <$> chunks height (width * channels) l).
Proof. intros Hlen. unfold reshape3. rewrite Hlen, Nat.eqb_refl. reflexivity. Qed.

Lemma lookup3_fmap {A B} (f : A -> B) arr y x k :
  lookup3 (fmap (M:=list) (fmap (M:=list) (fmap (M:=list) f)) arr) y x k =
    f <$> lookup3 arr y x k.
Proof.
  unfold lookup3. rewrite list_lookup_fmap.
  destruct (arr !! y) as [row|]; [|reflexivity]. cbn.
  rewrite list_lookup_fmap. destruct (row !! x) as [px|]; [|reflexivity]. cbn.
  apply list_lookup_fmap.
Qed.

(** The specification's formula gives 80 for the stored value 0.3125. *)
Example spec_byte_of_0_3125 : spec_byte Sample.f0_3125 80.
Proof. unfold spec_byte, nearest_integer. vm_compute. discriminate. Qed.

(** C3, as stated, fails: the stored value 0.3125 of a packed image is
    decoded to 79, the product 79.6875 cut toward zero, and 79 is not a
    nearest integer of clamp(0.3125, 0, 1) * 255. *)
Lemma C3_decoding_truncates :
  texture_of_image Sample.host Sample.dot =
    Ok (Some (TexPacked "dot" 1 1 1 [[[79]]])) /\
  ~ spec_byte Sample.f0_3125 79.
Proof.
  split; [vm_compute; reflexivity|].
  unfold spec_byte, nearest_integer. vm_compute. intros H. apply H. reflexivity.
Qed.

(** C3, amended. A packed image without file path whose buffer holds
    height*width*channels values is decoded to a record with the image's
    own width, height and channel count and a (height, width, channels)
    array in row-major order: entry [y][x][k] is the byte of the stored
    value number (y*width + x)*channels + k.  The byte of a stored value
    between 0 and 1 is the binary32 product value*255 cut toward zero
    (its floor), a number in 0..255; nothing is rounded to nearest and
    nothing is clamped. *)
Theorem C3_packed_image_decoding h img width height :
  img_filepath img = "" ->
  img_packed_file img = true ->
  img_size img = (width, height) ->
  length (img_pixels img) = (height * width * img_channels img)%nat ->
  exists data,
    texture_of_image h img =
      Ok (Some (TexPacked (img_name img) width height (img_channels img) data)) /\
    length data = height /\
    Forall (fun row => length row = width /\
                       Forall (fun px => length px = img_channels img) row) data /\
    (forall y x k : nat,
       (y < height)%nat -> (x < width)%nat -> (k < img_channels img)%nat ->
       lookup3 data y x k =
         pixel_to_uint8 h <$>
           img_pixels img !! ((y * width + x) * img_channels img + k)%nat) /\
    (forall v,
       F32.valid v = true ->
       F32.leb F32.zero v = true ->
       F32.leb v F32.one = true ->
       pixel_to_uint8 h v = Qfloor (SF.to_Q (F32.mul v F32.of_255)) /\
       0 <= pixel_to_uint8 h v <= 255).
Proof.
  intros Hpath Hpacked Hsize Hlen.
  set (rows := chunks height (width * img_channels img) (img_pixels img)).
  exists (astype_uint8_array h (chunks width (img_channels img) <$> rows)).
  split; [|split; [|split; [|split]]].
  - unfold texture_of_image. rewrite Hpath, Hpacked, Hsize. cbn [String.eqb negb].
    rewrite (reshape3_ok _ _ _ _ Hlen). reflexivity.
  - unfold astype_uint8_array. rewrite !length_fmap.
    apply chunks_shape. rewrite Hlen. lia.
  - unfold astype_uint8_array.
    destruct (chunks_shape height (width * img_channels img) (img_pixels img))
      as [_ Hrows]; [rewrite Hlen; lia|].
    fold rows in Hrows. rewrite <- list_fmap_compose.
    apply Forall_fmap. eapply Forall_impl; [exact Hrows|]. cbv beta.
    intros row Hrow. unfold compose.
    destruct (chunks_shape width (img_channels img) row Hrow) as [Hw Hpx].
    rewrite length_fmap. split; [exact Hw|].
    apply Forall_fmap. eapply Forall_impl; [exact Hpx|]. cbv beta.
    intros px Hc. unfold compose. rewrite length_fmap. exact Hc.
  - intros y x k Hy Hx Hk. unfold astype_uint8_array.
    rewrite lookup3_fmap. f_equal. apply reshape_rows_lookup; assumption.
  - apply pixel_to_uint8_unit_interval.
Qed.

Lemma C3_packed_image_decoding_witness :
  texture_of_image Sample.host Sample.strip =
    Ok (Some (TexPacked "strip" 3 2 2
                [[[0; 255]; [79; 255]; [0; 0]]; [[255; 255]; [0; 79]; [255; 0]]])) /\
  lookup3 [[[0; 255]; [79; 255]; [0; 0]]; [[255; 255]; [0; 79]; [255; 0]]] 1 1 1 =
    pixel_to_uint8 Sample.host <$> img_pixels Sample.strip !! 9%nat.
Proof.
  destruct (C3_packed_image_decoding Sample.host Sample.strip 3 2
              eq_refl eq_refl eq_refl eq_refl) as (data & Hdata & _ & _ & Hlookup & _).
  assert (data = [[[0; 255]; [79; 255]; [0; 0]]; [[255; 255]; [0; 79]; [255; 0]]]) as ->.
  { vm_compute in Hdata. congruence. }
  split; [exact Hdata|].
  apply (Hlookup 1%nat 1%nat 1%nat); cbn; lia.
Defined.

(** ** Running the orchestrator: one object at a time *)

Lemma export_object_other h m self folder obj tr :
  is_mesh obj = false ->
  export_object h m self folder obj tr = (Ok tt, tr).
Proof. unfold is_mesh, export_object. intros ->. reflexivity. Qed.

Lemma export_object_mesh h m self folder obj tr :
  is_mesh obj = true ->
  export_object h m self folder obj tr =
    match obj_mesh obj with
    | Raise e => (Raise e, tr ++ mesh_events obj)
    | Ok mesh =>
        match get_texture_data h obj with
        | Raise e => (Raise e, tr ++ mesh_events obj)
        | Ok textures =>
            let args := backend_args self folder (mesh_record obj mesh) textures in
            (match m (tr ++ mesh_events obj) args with
             | None => Ok tt
             | Some e => Raise e
             end,
             tr ++ mesh_events obj ++ [EvReadBlenderData args])
        end
    end.
Proof.
  intros Hm. unfold export_object.
  replace (obj_type obj =? "MESH")%string with true by (symmetry; exact Hm).
  cbn [negb]. unfold mbind at 1, M_bind at 1. rewrite (extract_data_mesh _ _ Hm).
  destruct (obj_mesh obj) as [mesh|e]; [|reflexivity].
  unfold_M. destruct (get_texture_data h obj) as [textures|e]; [|reflexivity].
  unfold_M. rewrite <- !app_assoc. reflexivity.
Qed.

(** ** The loop over the objects *)

Lemma backend_calls_app tr1 tr2 :
  backend_calls (tr1 ++ tr2) = backend_calls tr1 ++ backend_calls tr2.
Proof. apply omap_app. Qed.

Lemma reports_app tr1 tr2 : reports (tr1 ++ tr2) = reports tr1 ++ reports tr2.
Proof. apply omap_app. Qed.

Lemma export_objects_cons h m self folder obj rest tr :
  export_objects h m self folder (obj :: rest) tr =
    match export_object h m self folder obj tr with
    | (Ok _, tr') => export_objects h m self folder rest tr'
    | (Raise e, tr') => (Raise e, tr')
    end.
Proof. reflexivity. Qed.

Lemma export_objects_app h m self folder pre post tr :
  export_objects h m self folder (pre ++ post) tr =
    match export_objects h m self folder pre tr with
    | (Ok _, tr') => export_objects h m self folder post tr'
    | (Raise e, tr') => (Raise e, tr')
    end.
Proof.
  revert tr. induction pre as [|obj pre IH]; intros tr; [reflexivity|].
  rewrite <- app_comm_cons, !export_objects_cons.
  destruct (export_object h m self folder obj tr) as [[[]|e] tr']; [apply IH|reflexivity].
Qed.

(** A loop that runs to its end has issued one call per mesh object, in
    order, and nothing else that the backend sees. *)
Lemma export_objects_calls h m self objs : forall tr tr',
  export_objects h m self (os_path_dirname h (filepath self)) objs tr = (Ok tt, tr') ->
  exists calls,
    backend_calls tr' = backend_calls tr ++ calls /\
    Forall2 (call_for h self) (filter (fun obj => is_mesh obj = true) objs) calls.
Proof.
  induction objs as [|obj objs IH]; intros tr tr' Hrun.
  - exists []. injection Hrun as <-. rewrite app_nil_r. split; [reflexivity|constructor].
  - rewrite export_objects_cons in Hrun.
    destruct (is_mesh obj) eqn:Hm.
    + rewrite (export_object_mesh _ _ _ _ _ _ Hm) in Hrun.
      rewrite filter_cons_True by exact Hm.
      destruct (obj_mesh obj) as [mesh|e] eqn:Hmesh; [|discriminate].
      destruct (get_texture_data h obj) as [textures|e] eqn:Htex; [|discriminate].
      cbv zeta in Hrun.
      destruct (m _ _) eqn:Hcall; [discriminate|].
      destruct (IH _ _ Hrun) as (calls & Hcalls & Hall).
      eexists (_ :: calls). split.
      * rewrite Hcalls, !backend_calls_app. cbn. rewrite <- app_assoc. reflexivity.
      * constructor; [|exact Hall]. exists mesh, textures. auto.
    + rewrite (export_object_other _ _ _ _ _ _ Hm) in Hrun.
      rewrite filter_cons_False by (rewrite Hm; discriminate).
      apply IH. exact Hrun.
Qed.

(** What [execute] does once the backend is loaded. *)
Lemma execute_loaded h m self context :
  load_glTFCompL_module h = Ok m ->
  let folder := os_path_dirname h (filepath self) in
  run (execute h self context) =
    match os_makedirs h folder with
    | Some e => (Raise e, [EvMakedirs folder])
    | None =>
        conclude self
          (export_objects h m self folder (exported_objects self context)
             [EvMakedirs folder])
    end.
Proof.
  intros Hload. unfold run, execute, exported_objects, conclude. rewrite Hload. unfold_M.
  destruct (os_makedirs h _); unfold_M; [reflexivity|].
  destruct (export_objects _ _ _ _ _ _) as [[[]|e] tr]; reflexivity.
Qed.

(** A run on a scene of two meshes and a camera. *)
Example execute_two_meshes :
  let '(outcome, tr) := run (execute Sample.host Sample.self Sample.two_meshes) in
  outcome = Ok FINISHED /\
  reports tr = [("INFO", "Export complete: /tmp/out/scene.gltf")] /\
  (fun args => md_name (ba_mesh_data args)) <$> backend_calls tr = ["A"; "B"].
Proof. vm_compute. repeat split. Qed.

(** ** C4: the backend cannot be loaded *)

(** C4. When loading the backend module raises [ImportError], [execute]
    returns CANCELLED after one ERROR report and nothing else: no object
    is touched, no directory is created, no backend call is made. *)
Theorem C4_backend_unavailable_aborts h self context msg :
  load_glTFCompL_module h = Raise (ImportError msg) ->
  run (execute h self context) =
    (Ok CANCELLED, [EvReport "ERROR" ("Could not import glTFCompL: " +:+ msg)]).
Proof. intros Hload. unfold run, execute. rewrite Hload. reflexivity. Qed.

Lemma C4_backend_unavailable_aborts_witness :
  run (execute Sample.host_without_backend Sample.self Sample.two_meshes) =
    (Ok CANCELLED,
     [EvReport "ERROR" "Could not import glTFCompL: No module named 'glTFCompL'"]).
Proof.
  apply (C4_backend_unavailable_aborts Sample.host_without_backend Sample.self
           Sample.two_meshes "No module named 'glTFCompL'").
  reflexivity.
Defined.

(** ** C1: how often the backend is called *)

(** C1, as stated, fails: a scene with two mesh objects leads to two
    backend calls, not one. *)
Lemma C1_two_meshes_two_calls :
  ~ one_backend_call Sample.host Sample.self Sample.two_meshes.
Proof. unfold one_backend_call. vm_compute. discriminate. Qed.

(** C1, amended. An export that completes has called the backend once per
    mesh-type object of the exported set, in iteration order; each call
    carries that one object's mesh record and textures, the output folder
    and path, and the operator's five options. *)
Theorem C1_one_call_per_mesh_object h self context :
  fst (run (execute h self context)) = Ok FINISHED ->
  let calls := backend_calls (snd (run (execute h self context))) in
  Forall2 (call_for h self)
    (filter (fun obj => is_mesh obj = true) (exported_objects self context)) calls /\
  length calls =
    length (filter (fun obj => is_mesh obj = true) (exported_objects self context)).
Proof.
  intros Hfin calls.
  assert (Forall2 (call_for h self)
            (filter (fun obj => is_mesh obj = true) (exported_objects self context))
            calls) as Hall.
  { subst calls. revert Hfin.
    destruct (load_glTFCompL_module h) as [m|e] eqn:Hload.
    - rewrite (execute_loaded _ _ _ _ Hload). cbv zeta. unfold conclude.
      destruct (os_makedirs h _); [discriminate|].
      destruct (export_objects _ _ _ _ _ _) as [[[]|e] tr] eqn:Hrun; [|discriminate].
      intros _. destruct (export_objects_calls _ _ _ _ _ _ Hrun) as (calls & Hcalls & Hall).
      cbn [snd]. rewrite backend_calls_app, Hcalls. cbn. rewrite app_nil_r. exact Hall.
    - unfold run, execute. rewrite Hload. destruct e; discriminate. }
  split; [exact Hall|]. symmetry. eapply Forall2_length, Hall.
Qed.

Lemma C1_one_call_per_mesh_object_witness :
  let calls := backend_calls (snd (run (execute Sample.host Sample.self Sample.two_meshes))) in
  Forall2 (call_for Sample.host Sample.self)
    (filter (fun obj => is_mesh obj = true)
       (exported_objects Sample.self Sample.two_meshes)) calls /\
  length calls =
    length (filter (fun obj => is_mesh obj = true)
              (exported_objects Sample.self Sample.two_meshes)).
Proof.
  apply (C1_one_call_per_mesh_object Sample.host Sample.self Sample.two_meshes).
  reflexivity.
Defined.

(** ** C2: meshes without geometry *)

(** When every object is an extractable mesh and the backend returns
    normally, the loop runs to its end with one call per object. *)
Lemma export_objects_extractable h m self objs : forall tr,
  (forall tr args, m tr args = None) ->
  Forall (extractable h) objs ->
  exists tr' calls,
    export_objects h m self (os_path_dirname h (filepath self)) objs tr = (Ok tt, tr') /\
    backend_calls tr' = backend_calls tr ++ calls /\
    Forall2 (call_for h self) objs calls.
Proof.
  intros tr Hm Hall. revert tr.
  induction Hall as [|obj objs [Hmesh (mesh & textures & Hobj & Htex)] _ IH]; intros tr.
  - exists tr, []. rewrite app_nil_r. repeat split. constructor.
  - rewrite export_objects_cons, (export_object_mesh _ _ _ _ _ _ Hmesh), Hobj, Htex.
    cbv zeta. rewrite Hm.
    edestruct IH as (tr' & calls & Hrun & Hcalls & Hfor).
    exists tr'. eexists (_ :: calls). split; [exact Hrun|]. split.
    + rewrite Hcalls, !backend_calls_app. cbn. rewrite <- app_assoc. reflexivity.
    + constructor; [|exact Hfor]. exists mesh, textures. auto.
Qed.

(** C2, as stated, fails: for a mesh object without any vertex or
    triangle [extract_data] returns a record, not an empty result, and
    the export of a scene made of that object calls the backend with
    it. *)
Lemma C2_empty_mesh_not_skipped :
  fst (run (extract_data (Sample.mesh_object "Empty" Sample.no_geometry))) <> Ok None /\
  backend_calls (snd (run (execute Sample.host Sample.self Sample.only_empty))) <> [].
Proof. split; vm_compute; discriminate. Qed.

(** C2, amended. For a mesh object with zero vertices or zero triangles
    [extract_data] returns a record (a non-empty dict) whose vertex or
    index buffer is empty; the orchestrator does not skip the object but
    calls the backend with that record; and the export of a scene made of
    such objects finishes with FINISHED when the output directory can be
    made, the textures resolve and every backend call returns. *)
Theorem C2_empty_mesh_is_exported h m self context :
  load_glTFCompL_module h = Ok m ->
  os_makedirs h (os_path_dirname h (filepath self)) = None ->
  (forall tr args, m tr args = None) ->
  Forall (fun obj => extractable h obj /\
                     forall mesh, obj_mesh obj = Ok mesh -> empty_mesh mesh)
    (exported_objects self context) ->
  Forall (fun obj => exists md,
            fst (run (extract_data obj)) = Ok (Some md) /\
            (md_vertices md = [] \/ md_indices md = []))
    (exported_objects self context) /\
  fst (run (execute h self context)) = Ok FINISHED /\
  Forall2 (call_for h self) (exported_objects self context)
    (backend_calls (snd (run (execute h self context)))).
Proof.
  intros Hload Hdirs Hm Hall. split.
  - eapply Forall_impl; [exact Hall|]. cbv beta.
    intros obj [[Hmesh (mesh & textures & Hobj & _)] Hempty].
    exists (mesh_record obj mesh). unfold run.
    rewrite (extract_data_mesh _ _ Hmesh), Hobj. split; [reflexivity|].
    destruct (Hempty mesh Hobj) as [Hv|Ht]; [left; exact Hv|right].
    cbn. rewrite Ht. reflexivity.
  - assert (Forall (extractable h) (exported_objects self context)) as Hext.
    { eapply Forall_impl; [exact Hall|]. cbv beta. tauto. }
    destruct (export_objects_extractable h m self _
                [EvMakedirs (os_path_dirname h (filepath self))] Hm Hext)
      as (tr' & calls & Hrun & Hcalls & Hfor).
    rewrite (execute_loaded _ _ _ _ Hload). cbv zeta. unfold conclude.
    rewrite Hdirs, Hrun. cbn [fst snd].
    split; [reflexivity|].
    rewrite backend_calls_app, Hcalls. cbn. rewrite app_nil_r. exact Hfor.
Qed.

Lemma C2_empty_mesh_is_exported_witness :
  Forall (fun obj => exists md,
            fst (run (extract_data obj)) = Ok (Some md) /\
            (md_vertices md = [] \/ md_indices md = []))
    (exported_objects Sample.self Sample.only_empty) /\
  fst (run (execute Sample.host Sample.self Sample.only_empty)) = Ok FINISHED /\
  Forall2 (call_for Sample.host Sample.self)
    (exported_objects Sample.self Sample.only_empty)
    (backend_calls (snd (run (execute Sample.host Sample.self Sample.only_empty)))).
Proof.
  apply (C2_empty_mesh_is_exported Sample.host Sample.backend_ok Sample.self
           Sample.only_empty).
  - reflexivity.
  - reflexivity.
  - reflexivity.
  - apply Forall_cons_2; [|apply Forall_nil_2]. split.
    + split; [reflexivity|]. exists Sample.no_geometry, []. split; reflexivity.
    + intros mesh Hmesh. injection Hmesh as <-. left. reflexivity.
Defined.

(** ** C5: malformed scene data *)

Lemma export_object_reports h m self folder obj tr :
  reports (snd (export_object h m self folder obj tr)) = reports tr.
Proof.
  destruct (is_mesh obj) eqn:Hm.
  - rewrite (export_object_mesh _ _ _ _ _ _ Hm).
    destruct (obj_mesh obj); [destruct (get_texture_data h obj)|];
      cbn [snd]; rewrite reports_app; cbn; apply app_nil_r.
  - rewrite (export_object_other _ _ _ _ _ _ Hm). reflexivity.
Qed.

Lemma export_objects_reports h m self folder objs : forall tr,
  reports (snd (export_objects h m self folder objs tr)) = reports tr.
Proof.
  induction objs as [|obj objs IH]; intros tr; [reflexivity|].
  rewrite export_objects_cons.
  pose proof (export_object_reports h m self folder obj tr) as Hobj.
  destruct (export_object h m self folder obj tr) as [[[]|e] tr']; cbn [snd] in *.
  - rewrite IH. exact Hobj.
  - exact Hobj.
Qed.

(** The only reports of [execute]: the import error, or the final
    message. *)
Lemma execute_reports h self context :
  let r := reports (snd (run (execute h self context))) in
  r = [] \/
  (exists msg, r = [("ERROR", msg)]) \/
  r = [("INFO", "Export complete: " +:+ filepath self)].
Proof.
  cbv zeta. destruct (load_glTFCompL_module h) as [m|e] eqn:Hload.
  - rewrite (execute_loaded _ _ _ _ Hload). cbv zeta. unfold conclude.
    destruct (os_makedirs h _); [left; reflexivity|].
    pose proof (export_objects_reports h m self (os_path_dirname h (filepath self))
                  (exported_objects self context)
                  [EvMakedirs (os_path_dirname h (filepath self))]) as Hrep.
    destruct (export_objects _ _ _ _ _ _) as [[[]|e] tr]; cbn [snd] in *.
    + right. right. rewrite reports_app, Hrep. reflexivity.
    + left. exact Hrep.
  - unfold run, execute. rewrite Hload. destruct e.
    + right. left. eexists. reflexivity.
    + left. reflexivity.
    + left. reflexivity.
Qed.

Lemma execute_no_warning h self context :
  ~ warning_reported (snd (run (execute h self context))).
Proof.
  intros [msg Hin].
  destruct (execute_reports h self context) as [Hr|[[msg' Hr]|Hr]];
    rewrite Hr in Hin.
  - inversion Hin.
  - apply list_elem_of_singleton in Hin. discriminate.
  - apply list_elem_of_singleton in Hin. discriminate.
Qed.

(** C5, as stated, fails: a triangle that names vertex 7 of a 3-vertex
    mesh is extracted without any failure, the export reports no warning,
    and the record reaches the backend with the index as it is. *)
Lemma C5_out_of_range_index_passes :
  let tr := snd (run (execute Sample.host Sample.self Sample.malformed_then_good)) in
  ~ warning_reported tr /\
  fst (run (extract_data (Sample.mesh_object "Bad" Sample.dangling))) =
    Ok (Some (mesh_record (Sample.mesh_object "Bad" Sample.dangling) Sample.dangling)) /\
  (fun args => md_indices (ba_mesh_data args)) <$> backend_calls tr =
    [[0%N; 1%N; 7%N]; [0%N; 1%N; 2%N]].
Proof.
  cbv zeta. split; [apply execute_no_warning|]. split; vm_compute; reflexivity.
Qed.

(** The trace only grows. *)
Lemma export_objects_extends h m self folder objs : forall tr,
  tr `prefix_of` snd (export_objects h m self folder objs tr).
Proof.
  induction objs as [|obj objs IH]; intros tr; [reflexivity|].
  rewrite export_objects_cons.
  assert (tr `prefix_of` snd (export_object h m self folder obj tr)) as Hobj.
  { destruct (is_mesh obj) eqn:Hm.
    - rewrite (export_object_mesh _ _ _ _ _ _ Hm).
      destruct (obj_mesh obj); [destruct (get_texture_data h obj)|];
        cbn [snd]; apply prefix_app_r; reflexivity.
    - rewrite (export_object_other _ _ _ _ _ _ Hm). reflexivity. }
  destruct (export_object h m self folder obj tr) as [[[]|e] tr']; cbn [snd] in *.
  - etransitivity; [exact Hobj|apply IH].
  - exact Hobj.
Qed.

Lemma conclude_extends self r : snd r `prefix_of` snd (conclude self r).
Proof.
  destruct r as [[[]|e] tr]; cbn; [apply prefix_app_r|]; reflexivity.
Qed.

(** C5, amended. The orchestrator validates nothing and never reports a
    warning.  When the host prepares an object's mesh, whatever its
    indices, the object is handed to the backend as it is and the loop
    goes on with the next object.  When a host call raises during the
    extraction, the mesh is released and the exception leaves [execute]:
    the objects after it are not processed.  In both cases the events
    recorded for the earlier objects, backend calls included, stay as
    they were. *)
Theorem C5_no_validation_no_warning h m self context pre obj post tr_pre :
  load_glTFCompL_module h = Ok m ->
  os_makedirs h (os_path_dirname h (filepath self)) = None ->
  exported_objects self context = pre ++ obj :: post ->
  is_mesh obj = true ->
  export_objects h m self (os_path_dirname h (filepath self)) pre
    [EvMakedirs (os_path_dirname h (filepath self))] = (Ok tt, tr_pre) ->
  ~ warning_reported (snd (run (execute h self context))) /\
  tr_pre `prefix_of` snd (run (execute h self context)) /\
  match obj_mesh obj with
  | Raise e =>
      run (execute h self context) = (Raise e, tr_pre ++ mesh_events obj)
  | Ok mesh =>
      forall textures,
        get_texture_data h obj = Ok textures ->
        let args := backend_args self (os_path_dirname h (filepath self))
                      (mesh_record obj mesh) textures in
        m (tr_pre ++ mesh_events obj) args = None ->
        run (execute h self context) =
          conclude self
            (export_objects h m self (os_path_dirname h (filepath self)) post
               (tr_pre ++ mesh_events obj ++ [EvReadBlenderData args]))
  end.
Proof.
  intros Hload Hdirs Hobjs Hmesh Hpre.
  split; [apply execute_no_warning|].
  rewrite (execute_loaded _ _ _ _ Hload). cbv zeta.
  rewrite Hdirs, Hobjs, export_objects_app, Hpre, export_objects_cons,
    (export_object_mesh _ _ _ _ _ _ Hmesh).
  split.
  - destruct (obj_mesh obj) as [mesh|e]; [destruct (get_texture_data h obj) as [texs|e]|].
    + cbv zeta. etransitivity; [|apply conclude_extends].
      destruct (m _ _); cbn [snd].
      * apply prefix_app_r. reflexivity.
      * etransitivity; [|apply export_objects_extends]. apply prefix_app_r. reflexivity.
    + cbn. apply prefix_app_r. reflexivity.
    + cbn. apply prefix_app_r. reflexivity.
  - destruct (obj_mesh obj) as [mesh|e]; [|reflexivity].
    intros textures Htex Hcall. rewrite Htex. cbv zeta. rewrite Hcall. reflexivity.
Qed.

Lemma C5_no_validation_no_warning_witness :
  ~ warning_reported (snd (run (execute Sample.host Sample.self Sample.good_broken_good))) /\
  run (execute Sample.host Sample.self Sample.good_broken_good) =
    (Raise (HostError "triangulate failed"),
     [EvMakedirs "/tmp/out"; EvToMesh "A"; EvToMeshClear "A";
      EvReadBlenderData
        (backend_args Sample.self "/tmp/out"
           (mesh_record (Sample.mesh_object "A" Sample.triangle) Sample.triangle) []);
      EvToMesh "Broken"; EvToMeshClear "Broken"]).
Proof.
  pose proof (C5_no_validation_no_warning Sample.host Sample.backend_ok Sample.self
                Sample.good_broken_good [Sample.mesh_object "A" Sample.triangle]
                Sample.broken [Sample.mesh_object "B" Sample.triangle]
                [EvMakedirs "/tmp/out"; EvToMesh "A"; EvToMeshClear "A";
                 EvReadBlenderData
                   (backend_args Sample.self "/tmp/out"
                      (mesh_record (Sample.mesh_object "A" Sample.triangle)
                         Sample.triangle) [])]
                eq_refl eq_refl eq_refl eq_refl eq_refl) as (Hwarn & _ & Hrun).
  split; [exact Hwarn|exact Hrun].
Defined.

(** ** C6: the integer options that reach the backend *)

Lemma int_prop_store_range p v :
  ip_min p <= ip_max p ->
  ip_min p <= int_prop_store p v <= ip_max p.
Proof.
  unfold int_prop_store. intros Hp.
  destruct (Z.ltb_spec v (ip_min p)); [lia|].
  destruct (Z.ltb_spec (ip_max p) v); lia.
Qed.

Lemma int_prop_store_id p v :
  ip_min p <= v <= ip_max p -> int_prop_store p v = v.
Proof.
  unfold int_prop_store. intros Hv.
  destruct (Z.ltb_spec v (ip_min p)); [lia|].
  destruct (Z.ltb_spec (ip_max p) v); [lia|reflexivity].
Qed.

(** Every backend call of the loop carries the operator's options. *)
Lemma export_objects_options h m self folder objs : forall tr,
  Forall (options_of self) (backend_calls tr) ->
  Forall (options_of self)
    (backend_calls (snd (export_objects h m self folder objs tr))).
Proof.
  induction objs as [|obj objs IH]; intros tr Htr; [exact Htr|].
  rewrite export_objects_cons.
  assert (Forall (options_of self)
            (backend_calls (snd (export_object h m self folder obj tr)))) as Hobj.
  { destruct (is_mesh obj) eqn:Hm.
    - rewrite (export_object_mesh _ _ _ _ _ _ Hm).
      destruct (obj_mesh obj); [destruct (get_texture_data h obj)|];
        cbn [snd]; rewrite backend_calls_app; apply Forall_app; split; try exact Htr;
        cbn; repeat constructor.
    - rewrite (export_object_other _ _ _ _ _ _ Hm). exact Htr. }
  destruct (export_object h m self folder obj tr) as [[[]|e] tr']; cbn [snd] in *.
  - apply IH. exact Hobj.
  - exact Hobj.
Qed.

Lemma execute_options h self context :
  Forall (options_of self) (backend_calls (snd (run (execute h self context)))).
Proof.
  destruct (load_glTFCompL_module h) as [m|e] eqn:Hload.
  - rewrite (execute_loaded _ _ _ _ Hload). cbv zeta.
    destruct (os_makedirs h _); [constructor|].
    pose proof (export_objects_options h m self (os_path_dirname h (filepath self))
                  (exported_objects self context)
                  [EvMakedirs (os_path_dirname h (filepath self))]) as Hopt.
    unfold conclude.
    destruct (export_objects _ _ _ _ _ _) as [[[]|e] tr]; cbn [snd] in *.
    + rewrite backend_calls_app. cbn. rewrite app_nil_r. apply Hopt. constructor.
    + apply Hopt. constructor.
  - unfold run, execute. rewrite Hload. destruct e; constructor.
Qed.





(** * Further properties of the add-on *)

(** ** [execute]: which objects are processed *)

Lemma export_objects_mesh_only h m self folder objs : forall tr,
  export_objects h m self folder objs tr =
    export_objects h m self folder (filter (fun obj => is_mesh obj = true) objs) tr.
Proof.
  induction objs as [|obj objs IH]; intros tr; [reflexivity|].
  destruct (is_mesh obj) eqn:Hm.
  - rewrite filter_cons_True by exact Hm. rewrite !export_objects_cons.
    destruct (export_object h m self folder obj tr) as [[[]|e] tr']; [apply IH|reflexivity].
  - rewrite filter_cons_False by (rewrite Hm; discriminate).
    rewrite export_objects_cons, (export_object_other _ _ _ _ _ _ Hm). apply IH.
Qed.

(** X1. Objects that are not of type MESH leave no mark on an export:
    outcome and trace are those of the export of the mesh objects
    alone. *)
Theorem execute_ignores_other_objects h self context :
  run (execute h self context) = run (execute h self (mesh_only context)).
Proof.
  destruct (load_glTFCompL_module h) as [m|e] eqn:Hload.
  - rewrite !(execute_loaded _ _ _ _ Hload). cbv zeta.
    destruct (os_makedirs h _); [reflexivity|]. f_equal.
    rewrite export_objects_mesh_only. f_equal.
    unfold exported_objects, mesh_only. cbn.
    destruct (export_selected self); reflexivity.
  - unfold run, execute. rewrite Hload. reflexivity.
Qed.

(** X2. An export without any mesh object succeeds with nothing
    exported: once the backend is loaded and the output directory made,
    [execute] returns FINISHED and reports completion although no object
    was touched and the backend was never called. *)
Theorem execute_without_meshes h m self context :
  load_glTFCompL_module h = Ok m ->
  os_makedirs h (os_path_dirname h (filepath self)) = None ->
  Forall (fun obj => is_mesh obj = false) (exported_objects self context) ->
  run (execute h self context) =
    (Ok FINISHED,
     [EvMakedirs (os_path_dirname h (filepath self));
      EvReport "INFO" ("Export complete: " +:+ filepath self)]).
Proof.
  intros Hload Hdirs Hnone. rewrite (execute_loaded _ _ _ _ Hload). cbv zeta.
  rewrite Hdirs, export_objects_mesh_only.
  replace (filter (fun obj => is_mesh obj = true) (exported_objects self context))
    with (@nil Object); [reflexivity|].
  symmetry. induction Hnone as [|obj objs Hobj _ IH]; [reflexivity|].
  rewrite filter_cons_False by (rewrite Hobj; discriminate). exact IH.
Qed.

Lemma execute_without_meshes_witness :
  run (execute Sample.host Sample.self (Sample.scene [Sample.camera])) =
    (Ok FINISHED,
     [EvMakedirs "/tmp/out"; EvReport "INFO" "Export complete: /tmp/out/scene.gltf"]).
Proof.
  apply (execute_without_meshes Sample.host Sample.backend_ok Sample.self
           (Sample.scene [Sample.camera])); try reflexivity.
  apply Forall_cons_2; [reflexivity|apply Forall_nil_2].
Defined.

(** ** [execute]: the output directory *)

(** X3. When the output directory cannot be made, the exception leaves
    [execute] at once: the trace holds the attempt and nothing else, so no
    object is processed, no backend call is made and nothing is
    reported. *)
Theorem execute_makedirs_failure h m self context e :
  load_glTFCompL_module h = Ok m ->
  os_makedirs h (os_path_dirname h (filepath self)) = Some e ->
  run (execute h self context) =
    (Raise e, [EvMakedirs (os_path_dirname h (filepath self))]).
Proof.
  intros Hload Hdirs. rewrite (execute_loaded _ _ _ _ Hload). cbv zeta.
  rewrite Hdirs. reflexivity.
Qed.

Lemma execute_makedirs_failure_witness :
  run (execute Scenario.read_only_host Sample.self Sample.two_meshes) =
    (Raise (HostError "PermissionError: /readonly/out"), [EvMakedirs "/readonly/out"]).
Proof.
  apply (execute_makedirs_failure Scenario.read_only_host Sample.backend_ok Sample.self
           Sample.two_meshes); reflexivity.
Defined.

(** ** [execute]: the backend calls of any run *)

(** Whether the loop ends or raises, its backend calls are those of the
    first mesh objects, in order. *)
Lemma export_objects_calls_prefix h m self objs : forall tr,
  exists calls,
    backend_calls
      (snd (export_objects h m self (os_path_dirname h (filepath self)) objs tr)) =
      backend_calls tr ++ calls /\
    Forall2 (call_for h self)
      (take (length calls) (filter (fun obj => is_mesh obj = true) objs)) calls.
Proof.
  induction objs as [|obj objs IH]; intros tr.
  - exists []. cbn. rewrite app_nil_r. split; [reflexivity|constructor].
  - rewrite export_objects_cons. destruct (is_mesh obj) eqn:Hm.
    + rewrite (export_object_mesh _ _ _ _ _ _ Hm), filter_cons_True by exact Hm.
      destruct (obj_mesh obj) as [mesh|e] eqn:Hmesh.
      * destruct (get_texture_data h obj) as [textures|e] eqn:Htex.
        -- cbv zeta.
           set (args := backend_args self (os_path_dirname h (filepath self))
                          (mesh_record obj mesh) textures).
           assert (call_for h self obj args) as Hcall
             by (exists mesh, textures; auto).
           destruct (m _ _).
           ++ exists [args]. cbn [snd]. rewrite !backend_calls_app. cbn.
              split; [reflexivity|]. constructor; [exact Hcall|constructor].
           ++ destruct (IH (tr ++ mesh_events obj ++ [EvReadBlenderData args]))
                as (calls & Hcalls & Hall).
              exists (args :: calls). split.
              ** rewrite Hcalls, !backend_calls_app. cbn. rewrite <- app_assoc. reflexivity.
              ** cbn. constructor; assumption.
        -- exists []. cbn [snd]. rewrite backend_calls_app. cbn.
           split; [reflexivity|constructor].
      * exists []. cbn [snd]. rewrite backend_calls_app. cbn.
        split; [reflexivity|constructor].
    + rewrite (export_object_other _ _ _ _ _ _ Hm).
      rewrite filter_cons_False by (rewrite Hm; discriminate). apply IH.
Qed.

Lemma execute_calls_prefix h self context :
  let calls := backend_calls (snd (run (execute h self context))) in
  Forall2 (call_for h self)
    (take (length calls)
       (filter (fun obj => is_mesh obj = true) (exported_objects self context)))
    calls.
Proof.
  cbv zeta. destruct (load_glTFCompL_module h) as [m|e] eqn:Hload.
  - rewrite (execute_loaded _ _ _ _ Hload). cbv zeta.
    destruct (os_makedirs h _); [constructor|].
    destruct (export_objects_calls_prefix h m self (exported_objects self context)
                [EvMakedirs (os_path_dirname h (filepath self))])
      as (calls & Hcalls & Hall).
    assert (backend_calls
              (snd (conclude self
                      (export_objects h m self (os_path_dirname h (filepath self))
                         (exported_objects self context)
                         [EvMakedirs (os_path_dirname h (filepath self))]))) = calls)
      as ->; [|exact Hall].
    rewrite <- (app_nil_l calls). change [] with
      (backend_calls [EvMakedirs (os_path_dirname h (filepath self))]) at 2.
    rewrite <- Hcalls. unfold conclude.
    destruct (export_objects _ _ _ _ _ _) as [[[]|e] tr]; cbn [snd]; [|reflexivity].
    rewrite backend_calls_app. cbn. apply app_nil_r.
  - unfold run, execute. rewrite Hload. destruct e; constructor.
Qed.

(** X4. In every run, finished or not, the backend calls made so far are
    the calls for an initial segment of the mesh objects of the exported
    set, one call each and in iteration order: a failing export has
    exported the objects before the failure and none after it. *)
Theorem execute_calls_are_a_prefix h self context :
  let calls := backend_calls (snd (run (execute h self context))) in
  Forall2 (call_for h self)
    (take (length calls)
       (filter (fun obj => is_mesh obj = true) (exported_objects self context)))
    calls /\
  (length calls <=
     length (filter (fun obj => is_mesh obj = true) (exported_objects self context)))%nat.
Proof.
  cbv zeta. pose proof (execute_calls_prefix h self context) as Hall. cbv zeta in Hall.
  split; [exact Hall|].
  apply Forall2_length in Hall. rewrite length_take in Hall. lia.
Qed.

(** Every backend call of the loop is built by [backend_args] with the
    loop's folder. *)
Lemma export_objects_calls_Forall (P : BackendArgs -> Prop) h m self folder objs :
  (forall md textures, P (backend_args self folder md textures)) ->
  forall tr,
    Forall P (backend_calls tr) ->
    Forall P (backend_calls (snd (export_objects h m self folder objs tr))).
Proof.
  intros HP. induction objs as [|obj objs IH]; intros tr Htr; [exact Htr|].
  rewrite export_objects_cons.
  assert (Forall P (backend_calls (snd (export_object h m self folder obj tr)))) as Hobj.
  { destruct (is_mesh obj) eqn:Hm.
    - rewrite (export_object_mesh _ _ _ _ _ _ Hm).
      destruct (obj_mesh obj); [destruct (get_texture_data h obj)|];
        cbn [snd]; rewrite backend_calls_app; apply Forall_app; split; try exact Htr;
        cbn; repeat constructor. apply HP.
    - rewrite (export_object_other _ _ _ _ _ _ Hm). exact Htr. }
  destruct (export_object h m self folder obj tr) as [[[]|e] tr']; cbn [snd] in *.
  - apply IH. exact Hobj.
  - exact Hobj.
Qed.

(** X5. The output directory is made before anything else: whenever a
    run contains a backend call, its trace starts with the creation of
    the folder that this call, like every other, is given, the parent
    folder of the output path. *)
Theorem execute_makedirs_before_backend h self context args :
  args ∈ backend_calls (snd (run (execute h self context))) ->
  ba_export_folder args = os_path_dirname h (filepath self) /\
  [EvMakedirs (ba_export_folder args)] `prefix_of` snd (run (execute h self context)).
Proof.
  destruct (load_glTFCompL_module h) as [m|e] eqn:Hload.
  - rewrite (execute_loaded _ _ _ _ Hload). cbv zeta.
    destruct (os_makedirs h _); [intros Hin; inversion Hin|].
    set (folder := os_path_dirname h (filepath self)).
    set (r := export_objects h m self folder (exported_objects self context)
                [EvMakedirs folder]).
    intros Hin.
    assert (Forall (fun a => ba_export_folder a = folder) (backend_calls (snd r))) as Hall.
    { apply export_objects_calls_Forall; [reflexivity|constructor]. }
    assert (backend_calls (snd (conclude self r)) = backend_calls (snd r)) as Hsame.
    { unfold conclude. destruct r as [[[]|e] tr]; cbn [snd]; [|reflexivity].
      rewrite backend_calls_app. cbn. apply app_nil_r. }
    rewrite Hsame in Hin. rewrite Forall_forall in Hall.
    rewrite (Hall _ Hin). split; [reflexivity|].
    etransitivity; [|apply conclude_extends]. apply export_objects_extends.
  - unfold run, execute. rewrite Hload. destruct e; intros Hin; inversion Hin.
Qed.

Lemma execute_makedirs_before_backend_witness :
  [EvMakedirs "/tmp/out"] `prefix_of`
    snd (run (execute Sample.host Sample.self Sample.two_meshes)).
Proof.
  apply (execute_makedirs_before_backend Sample.host Sample.self Sample.two_meshes
           (backend_args Sample.self "/tmp/out"
              (mesh_record (Sample.mesh_object "A" Sample.triangle) Sample.triangle) [])).
  left.
Defined.

(** ** [execute]: failures while an object is exported *)

(** X6. When the textures of a mesh object cannot be resolved, or the
    backend raises on the object's call, the exception leaves [execute]:
    the objects after it are not processed and no completion is
    reported.  The object's temporary mesh has been released by then; in
    the first case the backend is not called for the object, in the second
    the failed call is the last event. *)
Theorem execute_object_failure_aborts h m self context pre obj post tr_pre mesh :
  load_glTFCompL_module h = Ok m ->
  os_makedirs h (os_path_dirname h (filepath self)) = None ->
  exported_objects self context = pre ++ obj :: post ->
  is_mesh obj = true ->
  obj_mesh obj = Ok mesh ->
  export_objects h m self (os_path_dirname h (filepath self)) pre
    [EvMakedirs (os_path_dirname h (filepath self))] = (Ok tt, tr_pre) ->
  match get_texture_data h obj with
  | Raise e =>
      run (execute h self context) = (Raise e, tr_pre ++ mesh_events obj)
  | Ok textures =>
      let args := backend_args self (os_path_dirname h (filepath self))
                    (mesh_record obj mesh) textures in
      forall e,
        m (tr_pre ++ mesh_events obj) args = Some e ->
        run (execute h self context) =
          (Raise e, tr_pre ++ mesh_events obj ++ [EvReadBlenderData args])
  end.
Proof.
  intros Hload Hdirs Hobjs Hmesh Hobj Hpre.
  rewrite (execute_loaded _ _ _ _ Hload). cbv zeta.
  rewrite Hdirs, Hobjs, export_objects_app, Hpre, export_objects_cons,
    (export_object_mesh _ _ _ _ _ _ Hmesh), Hobj.
  destruct (get_texture_data h obj) as [textures|e]; [|reflexivity].
  intros e He. cbv zeta. rewrite He. reflexivity.
Qed.

Lemma execute_object_failure_aborts_witness :
  run (execute Scenario.host_failing_on_B Sample.self Scenario.three_meshes) =
    (Raise (HostError "RuntimeError: encoder failed"),
     [EvMakedirs "/tmp/out"; EvToMesh "A"; EvToMeshClear "A";
      EvReadBlenderData
        (backend_args Sample.self "/tmp/out"
           (mesh_record (Sample.mesh_object "A" Sample.triangle) Sample.triangle) []);
      EvToMesh "B"; EvToMeshClear "B";
      EvReadBlenderData
        (backend_args Sample.self "/tmp/out"
           (mesh_record (Sample.mesh_object "B" Sample.triangle) Sample.triangle) [])]).
Proof.
  apply (execute_object_failure_aborts Scenario.host_failing_on_B
           Scenario.backend_failing_on_B Sample.self Scenario.three_meshes
           [Sample.mesh_object "A" Sample.triangle]
           (Sample.mesh_object "B" Sample.triangle)
           [Sample.mesh_object "C" Sample.triangle]
           [EvMakedirs "/tmp/out"; EvToMesh "A"; EvToMeshClear "A";
            EvReadBlenderData
              (backend_args Sample.self "/tmp/out"
                 (mesh_record (Sample.mesh_object "A" Sample.triangle) Sample.triangle) [])]
           Sample.triangle eq_refl eq_refl eq_refl eq_refl eq_refl eq_refl
           (HostError "RuntimeError: encoder failed")).
  reflexivity.
Defined.

(** ** [execute]: what the user is told *)

(** X7. The report of a run tells its outcome.  A run that returns
    FINISHED has made one report, INFO with the output path, as its last
    host call; a run that returns CANCELLED has made one report, the ERROR
    of the failed import, and nothing else; a run that raises has
    reported nothing. *)
Theorem execute_outcome_and_reports h self context :
  let '(outcome, tr) := run (execute h self context) in
  match outcome with
  | Ok FINISHED =>
      reports tr = [("INFO", "Export complete: " +:+ filepath self)] /\
      last tr = Some (EvReport "INFO" ("Export complete: " +:+ filepath self))
  | Ok CANCELLED =>
      exists msg,
        load_glTFCompL_module h = Raise (ImportError msg) /\
        tr = [EvReport "ERROR" ("Could not import glTFCompL: " +:+ msg)]
  | Raise _ => reports tr = []
  end.
Proof.
  destruct (load_glTFCompL_module h) as [m|e] eqn:Hload.
  - rewrite (execute_loaded _ _ _ _ Hload). cbv zeta.
    destruct (os_makedirs h _); [reflexivity|].
    pose proof (export_objects_reports h m self (os_path_dirname h (filepath self))
                  (exported_objects self context)
                  [EvMakedirs (os_path_dirname h (filepath self))]) as Hrep.
    unfold conclude.
    destruct (export_objects _ _ _ _ _ _) as [[[]|e] tr]; cbn [snd] in Hrep.
    + split; [rewrite reports_app, Hrep; reflexivity|apply last_snoc].
    + exact Hrep.
  - unfold run, execute. rewrite Hload. destruct e; cbn; try reflexivity.
    eexists. split; reflexivity.
Qed.

(** ** [execute]: the temporary meshes *)

Lemma released_app tr : forall held blk,
  released held tr = true ->
  released held (tr ++ blk) = released None blk.
Proof.
  induction tr as [|ev tr IH]; intros held blk Hrel.
  - destruct held; [discriminate|reflexivity].
  - destruct ev, held as [name'|]; cbn in *; try discriminate; try (apply IH; exact Hrel).
    apply andb_prop in Hrel as [Hname Hrel]. rewrite Hname. cbn. apply IH. exact Hrel.
Qed.

Lemma released_mesh_events obj : released None (mesh_events obj) = true.
Proof. cbn. rewrite String.eqb_refl. reflexivity. Qed.

Lemma export_objects_released h m self folder objs : forall tr,
  released None tr = true ->
  released None (snd (export_objects h m self folder objs tr)) = true.
Proof.
  induction objs as [|obj objs IH]; intros tr Htr; [exact Htr|].
  rewrite export_objects_cons.
  assert (released None (snd (export_object h m self folder obj tr)) = true) as Hobj.
  { destruct (is_mesh obj) eqn:Hm.
    - rewrite (export_object_mesh _ _ _ _ _ _ Hm).
      destruct (obj_mesh obj); [destruct (get_texture_data h obj)|];
        cbn [snd]; rewrite (released_app _ _ _ Htr); cbn;
        rewrite String.eqb_refl; reflexivity.
    - rewrite (export_object_other _ _ _ _ _ _ Hm). exact Htr. }
  destruct (export_object h m self folder obj tr) as [[[]|e] tr']; cbn [snd] in *.
  - apply IH. exact Hobj.
  - exact Hobj.
Qed.

(** X8. [execute] never keeps a temporary mesh: in the trace of every
    run, ended or raised, each mesh obtained from [to_mesh] is cleared
    before the next host call, so none is held when the backend is
    called, when something is reported or when [execute] is left. *)
Theorem execute_releases_meshes h self context :
  released None (snd (run (execute h self context))) = true.
Proof.
  destruct (load_glTFCompL_module h) as [m|e] eqn:Hload.
  - rewrite (execute_loaded _ _ _ _ Hload). cbv zeta.
    destruct (os_makedirs h _); [reflexivity|].
    pose proof (export_objects_released h m self (os_path_dirname h (filepath self))
                  (exported_objects self context)
                  [EvMakedirs (os_path_dirname h (filepath self))] eq_refl) as Hrel.
    unfold conclude.
    destruct (export_objects _ _ _ _ _ _) as [[[]|e] tr]; cbn [snd] in *.
    + rewrite (released_app _ _ _ Hrel). reflexivity.
    + exact Hrel.
  - unfold run, execute. rewrite Hload. destruct e; reflexivity.
Qed.

(** Outside [execute] the guarantee does not hold: called on an object
    that is not a mesh, [extract_data] obtains a mesh and returns without
    clearing it. *)
Example extract_data_keeps_mesh_of_other_object :
  released None (snd (run (extract_data Sample.camera))) = false.
Proof. reflexivity. Qed.

(** ** [execute]: the options as the user set them *)

Lemma int_prop_store_clamp p v :
  ip_min p <= ip_max p ->
  int_prop_store p v = Z.max (ip_min p) (Z.min (ip_max p) v).
Proof.
  unfold int_prop_store. intros Hp.
  destruct (Z.ltb_spec v (ip_min p)); [lia|].
  destruct (Z.ltb_spec (ip_max p) v); lia.
Qed.

(** X9. Every backend call carries the user's settings: the output path
    and the three switches as they are, and the Draco level and JPEG
    quality brought to the nearest bound of 1..9 and 1..100, hence
    unchanged when they lie inside. *)
Theorem execute_passes_settings h s context :
  Forall (options_as_requested s)
    (backend_calls (snd (run (execute h (operator_of s) context)))).
Proof.
  eapply Forall_impl; [apply execute_options|]. cbv beta.
  intros args (Hp & Hd & Hl & Hj & Hq & Hz). unfold options_as_requested.
  rewrite Hp, Hd, Hl, Hj, Hq, Hz. cbn [operator_of filepath use_draco draco_level
    use_jpeg jpeg_quality use_zip].
  rewrite (int_prop_store_clamp draco_level_prop), (int_prop_store_clamp jpeg_quality_prop)
    by (cbn; lia).
  repeat split.
Qed.

(** ** [extract_data]: order of the index buffer *)

Lemma flatten_triangles_lookup tris : forall t a b c,
  tris !! t = Some (a, b, c) ->
  flatten_triangles tris !! (3 * t)%nat = Some a /\
  flatten_triangles tris !! (3 * t + 1)%nat = Some b /\
  flatten_triangles tris !! (3 * t + 2)%nat = Some c.
Proof.
  unfold flatten_triangles.
  induction tris as [|[[a' b'] c'] tris IH]; intros t a b c Ht; [discriminate|].
  destruct t as [|t].
  - injection Ht as -> -> ->. repeat split.
  - cbn in Ht. destruct (IH _ _ _ _ Ht) as (Ha & Hb & Hc).
    replace (3 * S t)%nat with (S (S (S (3 * t)))) by lia.
    cbn. repeat split; assumption.
Qed.

(** X10. The index buffer keeps the host's triangle order and winding: the
    three corners of loop triangle number t are the entries 3t, 3t+1 and
    3t+2 of the buffer, in the triangle's own order. *)
Theorem extract_data_keeps_triangle_order obj mesh t a b c :
  is_mesh obj = true ->
  obj_mesh obj = Ok mesh ->
  mesh_loop_triangles mesh !! t = Some (a, b, c) ->
  exists md,
    fst (run (extract_data obj)) = Ok (Some md) /\
    md_indices md !! (3 * t)%nat = Some a /\
    md_indices md !! (3 * t + 1)%nat = Some b /\
    md_indices md !! (3 * t + 2)%nat = Some c.
Proof.
  intros Hm Hmesh Ht. exists (mesh_record obj mesh). unfold run.
  rewrite (extract_data_mesh _ _ Hm), Hmesh. split; [reflexivity|].
  apply flatten_triangles_lookup. exact Ht.
Qed.

Lemma extract_data_keeps_triangle_order_witness :
  exists md,
    fst (run (extract_data (Sample.mesh_object "Quad" Scenario.quad))) = Ok (Some md) /\
    md_indices md !! 3%nat = Some 0%N /\
    md_indices md !! 4%nat = Some 2%N /\
    md_indices md !! 5%nat = Some 3%N.
Proof.
  apply (extract_data_keeps_triangle_order (Sample.mesh_object "Quad" Scenario.quad)
           Scenario.quad 1%nat 0%N 2%N 3%N); reflexivity.
Defined.

(** ** [get_texture_data]: order, repetition and failure *)

Lemma resolve_images_app h imgs1 imgs2 :
  resolve_images h (imgs1 ++ imgs2) =
    match resolve_images h imgs1 with
    | Raise e => Raise e
    | Ok texs1 =>
        match resolve_images h imgs2 with
        | Raise e => Raise e
        | Ok texs2 => Ok (texs1 ++ texs2)
        end
    end.
Proof.
  induction imgs1 as [|img imgs1 IH]; cbn [app resolve_images].
  - destruct (resolve_images h imgs2); reflexivity.
  - destruct (texture_of_image h img) as [tex|e]; [|reflexivity].
    rewrite IH. destruct (resolve_images h imgs1) as [texs1|e]; [|reflexivity].
    destruct (resolve_images h imgs2) as [texs2|e]; [|reflexivity].
    destruct tex; reflexivity.
Qed.

Lemma textures_of_nodes_resolve h nodes : forall textures,
  textures_of_nodes h nodes textures =
    match resolve_images h (image_inputs_of_nodes nodes) with
    | Raise e => Raise e
    | Ok texs => Ok (textures ++ texs)
    end.
Proof.
  unfold image_inputs_of_nodes.
  induction nodes as [|node nodes IH]; intros textures; cbn [textures_of_nodes omap list_omap].
  - cbn. rewrite app_nil_r. reflexivity.
  - destruct (if String.eqb (node_type node) "TEX_IMAGE" then node_image node else None)
      as [img|]; [|apply IH].
    cbn [resolve_images]. unfold mbind, result_bind.
    destruct (texture_of_image h img) as [[t|]|e]; [| |reflexivity].
    + rewrite IH. destruct (resolve_images h _) as [texs|e]; [|reflexivity].
      rewrite <- app_assoc. reflexivity.
    + rewrite IH. destruct (resolve_images h _) as [texs|e]; reflexivity.
Qed.

Lemma textures_of_materials_resolve h mats : forall textures,
  textures_of_materials h mats textures =
    match resolve_images h
            (mats ≫= (fun slot =>
               match slot with
               | Some mat =>
                   if mat_use_nodes mat then image_inputs_of_nodes (mat_nodes mat) else []
               | None => []
               end)) with
    | Raise e => Raise e
    | Ok texs => Ok (textures ++ texs)
    end.
Proof.
  induction mats as [|[mat|] mats IH]; intros textures; cbn [textures_of_materials].
  - cbn. rewrite app_nil_r. reflexivity.
  - rewrite bind_cons. destruct (mat_use_nodes mat).
    + rewrite resolve_images_app. unfold mbind at 1, result_bind at 1.
      rewrite textures_of_nodes_resolve.
      destruct (resolve_images h (image_inputs_of_nodes (mat_nodes mat))) as [texs1|e];
        [|reflexivity].
      rewrite IH. destruct (resolve_images h _) as [texs2|e]; [|reflexivity].
      rewrite <- app_assoc. reflexivity.
    + rewrite app_nil_l. apply IH.
  - rewrite bind_cons, app_nil_l. apply IH.
Qed.

Lemma get_texture_data_resolve h obj :
  get_texture_data h obj = resolve_images h (image_inputs obj).
Proof.
  unfold get_texture_data, image_inputs.
  destruct (obj_data_materials obj) as [|slot slots]; [reflexivity|].
  rewrite textures_of_materials_resolve.
  destruct (resolve_images h _); reflexivity.
Qed.

(** X11. The textures of an object are the records of its image inputs
    (the images of the image nodes of its node-using materials) taken in
    material order and then node order: an image reached twice gives two
    records, an image without file path and packed data gives none and no
    error, and the first image that cannot be decoded makes the whole
    call raise. *)
Theorem get_texture_data_resolves_inputs_in_order h obj :
  get_texture_data h obj = resolve_images h (image_inputs obj).
Proof. apply get_texture_data_resolve. Qed.

Lemma texture_of_image_source h img tex :
  texture_of_image h img = Ok tex ->
  (exists t, tex = Some t) <-> has_source img = true.
Proof.
  unfold texture_of_image, has_source.
  destruct (String.eqb (img_filepath img) ""); cbn [negb orb].
  - destruct (img_packed_file img).
    + destruct (img_size img) as [width height].
      destruct (reshape3 _ _ _ _); cbn; [|discriminate].
      intros [= <-]. split; eauto.
    + intros [= <-]. split; [intros [t Ht]; discriminate|discriminate].
  - intros [= <-]. split; eauto.
Qed.

Lemma resolve_images_length h imgs : forall texs,
  resolve_images h imgs = Ok texs ->
  length texs = length (filter (fun img => has_source img = true) imgs).
Proof.
  induction imgs as [|img imgs IH]; intros texs; cbn [resolve_images].
  - intros [= <-]. reflexivity.
  - destruct (texture_of_image h img) as [tex|e] eqn:Htex; [|discriminate].
    destruct (resolve_images h imgs) as [texs'|e]; [|discriminate].
    intros [= <-]. pose proof (texture_of_image_source _ _ _ Htex) as Hsrc.
    destruct tex as [t|].
    + rewrite filter_cons_True by (apply Hsrc; eauto). cbn. f_equal. apply IH. reflexivity.
    + rewrite filter_cons_False.
      * apply IH. reflexivity.
      * intros Hs. apply Hsrc in Hs as [t Ht]. discriminate.
Qed.

(** X12. When the textures of an object resolve, there is one record per
    image input that has a file path or packed data, counted with
    repetition: nothing is merged and nothing is added. *)
Theorem get_texture_data_count h obj textures :
  get_texture_data h obj = Ok textures ->
  length textures =
    length (filter (fun img => has_source img = true) (image_inputs obj)).
Proof.
  rewrite get_texture_data_resolve. apply resolve_images_length.
Qed.

Lemma get_texture_data_count_witness :
  get_texture_data Sample.host Scenario.shared_image =
    Ok [TexPacked "dot" 1 1 1 [[[79]]]; TexPacked "dot" 1 1 1 [[[79]]]] /\
  length [TexPacked "dot" 1 1 1 [[[79]]]; TexPacked "dot" 1 1 1 [[[79]]]] =
    length (filter (fun img => has_source img = true)
              (image_inputs Scenario.shared_image)).
Proof.
  split; [reflexivity|].
  apply (get_texture_data_count Sample.host Scenario.shared_image). reflexivity.
Defined.

(** ** [get_texture_data]: decoding packed images *)

(** X13. Resolving an image raises in one case only: the image has no
    file path, has packed data, and its pixel buffer does not hold
    exactly height*width*channels values; the exception is then the
    [ValueError] of the reshape.  Images with a file path or without any
    source never raise. *)
Theorem texture_of_image_raises_iff h img e :
  texture_of_image h img = Raise e <->
  img_filepath img = "" /\
  img_packed_file img = true /\
  length (img_pixels img) <>
    (snd (img_size img) * fst (img_size img) * img_channels img)%nat /\
  e = ValueError "cannot reshape array".
Proof.
  unfold texture_of_image.
  destruct (String.eqb_spec (img_filepath img) "") as [Hpath|Hpath]; cbn [negb].
  - destruct (img_packed_file img).
    + destruct (img_size img) as [width height]. cbn [fst snd]. unfold reshape3.
      destruct (Nat.eqb_spec (length (img_pixels img))
                  (height * width * img_channels img)) as [Hlen|Hlen]; cbn.
      * split; [discriminate|]. intros (_ & _ & Hne & _). contradiction.
      * split; [intros [= <-]; auto|]. intros (_ & _ & _ & ->). reflexivity.
    + split; [discriminate|]. intros (_ & Hp & _). discriminate.
  - split; [discriminate|]. intros (Hp & _). contradiction.
Qed.

Lemma join_fmap_fmap {A B} (f : A -> B) (ls : list (list A)) :
  mjoin (fmap (M:=list) (fmap (M:=list) f) ls) = f <$> mjoin ls.
Proof.
  induction ls as [|l ls IH]; [reflexivity|].
  cbn. rewrite fmap_app. f_equal. exact IH.
Qed.

Lemma join_chunks {A} count size (l : list A) :
  length l = (count * size)%nat -> mjoin (chunks count size l) = l.
Proof.
  intros Hlen. unfold chunks. apply join_reshape.
  rewrite sum_list_replicate. symmetry. exact Hlen.
Qed.

Lemma join_join_chunks {A} width channels (rows : list (list A)) :
  Forall (fun row => length row = (width * channels)%nat) rows ->
  mjoin (mjoin (chunks width channels <$> rows)) = mjoin rows.
Proof.
  induction 1 as [|row rows Hrow _ IH]; [reflexivity|].
  rewrite fmap_cons.
  change (mjoin (chunks width channels row :: (chunks width channels <$> rows)))
    with (chunks width channels row ++ mjoin (chunks width channels <$> rows)).
  rewrite join_app, IH, (join_chunks _ _ _ Hrow). reflexivity.
Qed.

Lemma astype_uint8_range undef x : 0 <= F32.astype_uint8 undef x <= 255.
Proof.
  unfold F32.astype_uint8.
  assert (0 <= undef x mod 256 <= 255) as Hmod
    by (pose proof (Z.mod_pos_bound (undef x) 256); lia).
  destruct (SF.trunc x) as [z|]; [|exact Hmod].
  destruct (Z.leb_spec 0 z), (Z.leb_spec z 255); cbn; lia.
Qed.

(** X14. A decoded packed image is the pixel buffer itself, byte for
    byte: read in row-major order the (height, width, channels) array
    gives back one byte per stored value in buffer order, so it holds
    exactly width*height*channels bytes; every byte lies in 0..255
    whatever the stored floats are; name, size and channel count are the
    image's own. *)
Theorem packed_record_is_the_buffer h img name width height channels data :
  texture_of_image h img = Ok (Some (TexPacked name width height channels data)) ->
  flatten3 data = pixel_to_uint8 h <$> img_pixels img /\
  length (flatten3 data) = (width * height * channels)%nat /\
  Forall (fun b => 0 <= b <= 255) (flatten3 data) /\
  name = img_name img /\
  (width, height) = img_size img /\
  channels = img_channels img.
Proof.
  unfold texture_of_image.
  destruct (String.eqb (img_filepath img) ""); cbn [negb]; [|discriminate].
  destruct (img_packed_file img); [|discriminate].
  destruct (img_size img) as [w hh]. unfold reshape3.
  destruct (Nat.eqb_spec (length (img_pixels img)) (hh * w * img_channels img))
    as [Hlen|Hlen]; cbn; [|discriminate].
  intros [= <- <- <- <- <-].
  assert (flatten3 (astype_uint8_array h
            (chunks w (img_channels img) <$>
               chunks hh (w * img_channels img) (img_pixels img))) =
          pixel_to_uint8 h <$> img_pixels img) as Hflat.
  { unfold flatten3, astype_uint8_array.
    rewrite !join_fmap_fmap. f_equal.
    rewrite join_join_chunks
      by (apply chunks_shape; rewrite Hlen; lia).
    apply join_chunks. rewrite Hlen. lia. }
  rewrite Hflat. repeat split.
  - rewrite length_fmap, Hlen. lia.
  - apply Forall_fmap, Forall_forall. intros v _. apply astype_uint8_range.
Qed.

Lemma packed_record_is_the_buffer_witness :
  flatten3 [[[0; 255]; [79; 255]; [0; 0]]; [[255; 255]; [0; 79]; [255; 0]]] =
    pixel_to_uint8 Sample.host <$> img_pixels Sample.strip /\
  length (flatten3 [[[0; 255]; [79; 255]; [0; 0]]; [[255; 255]; [0; 79]; [255; 0]]]) =
    (3 * 2 * 2)%nat.
Proof.
  destruct (packed_record_is_the_buffer Sample.host Sample.strip "strip" 3 2 2
              [[[0; 255]; [79; 255]; [0; 0]]; [[255; 255]; [0; 79]; [255; 0]]])
    as (Hflat & Hlen & _).
  - vm_compute. reflexivity.
  - split; [exact Hflat|exact Hlen].
Defined.

Lemma texture_of_image_raises_iff_witness :
  texture_of_image Sample.host Scenario.short_buffer =
    Raise (ValueError "cannot reshape array").
Proof.
  apply (texture_of_image_raises_iff Sample.host Scenario.short_buffer
           (ValueError "cannot reshape array")).
  repeat split. cbn. lia.
Defined.

(** ** [get_texture_data]: how far a decoded byte is from the exact value *)

(** The binary32 product of a float below 1 with 255, truncated, against
    the truncated exact product. *)
Lemma mul_255_floor m e :
  bounded 24 128 m e = true ->
  e <= -24 ->
  exists z,
    Z.pos m * 255 / 2 ^ (- e) <= z <= Z.pos m * 255 / 2 ^ (- e) + 1 /\
    match SFmul 24 128 (S754_finite false m e) F32.of_255 with
    | S754_zero _ => z = 0
    | S754_finite s m2 e2 => s = false /\ z = Z.shiftl (Z.pos m2) e2
    | _ => False
    end.
Proof.
  intros Hb He. unfold bounded, canonical_mantissa in Hb.
  apply andb_prop in Hb as [Hcanon _]. apply Z.eqb_eq in Hcanon.
  unfold fexp, emin in Hcanon.
  assert (Z.pos m < 2 ^ 24) as Hm.
  { pose proof (Zdigits2_upper (Z.pos m) ltac:(lia)) as Hup. cbn [Zdigits2] in Hup.
    assert (Z.pos (digits2_pos m) <= 24) by lia.
    eapply Z.lt_le_trans; [exact Hup|]. apply Z.pow_le_mono_r; lia. }
  unfold F32.of_255. cbn [SFmul xorb].
  destruct (binary_round_aux_spec 24 128 (Z.pos (m * 16711680)) (e + -16) loc_Exact
              ltac:(lia)) as (m1 & m1' & m2 & e1 & e2 & He1 & Hm1 & Hr & He2 & Hm2 & ->).
  set (M := Z.pos (m * 16711680)) in *. set (E := e + -16) in *.
  assert (M = Z.pos m * 255 * 65536) as HM by (unfold M; lia).
  unfold fexp, emin in He1, He2.
  set (D := 2 ^ (- e)).
  assert (0 < D) as HD by (apply Z.pow_pos_nonneg; lia).
  assert (2 ^ 24 <= D) as HD24 by (apply Z.pow_le_mono_r; lia).
  assert (Zdigits2 M <= 48) as HdM.
  { apply Zdigits2_le; [lia|lia|]. change (2 ^ 48) with (16777216 * 16777216).
    change (2 ^ 24) with 16777216 in Hm. nia. }
  assert (E <= e1 <= -16) as He1b by (unfold E in *; lia).
  set (A := 2 ^ (e1 - E)) in *.
  assert (0 < A) as HA by (apply Z.pow_pos_nonneg; lia).
  assert (A <= D) as HAD by (apply Z.pow_le_mono_r; unfold E; lia).
  assert (A * 2 ^ (- e1) = D * 65536) as HAe1.
  { unfold A, D. rewrite <- Z.pow_add_r by lia. change 65536 with (2 ^ 16).
    rewrite <- Z.pow_add_r by lia. f_equal. unfold E. lia. }
  assert (0 < 2 ^ (- e1)) as Hpe1 by (apply Z.pow_pos_nonneg; lia).
  assert (0 <= m1) as Hm1pos by (rewrite Hm1; apply Z.div_pos; lia).
  assert (A * m1 <= M < A * m1 + A) as Hm1b.
  { rewrite Hm1. pose proof (Z.mul_div_le M A HA).
    pose proof (Z.mul_succ_div_gt M A HA). lia. }
  assert (m1 < 255 * 2 ^ (- e1)) as Hm1lt.
  { change (2 ^ 24) with 16777216 in *. nia. }
  assert (Zdigits2 m1' <= 8 - e1) as Hd'.
  { apply Zdigits2_le; [lia|lia|].
    replace (8 - e1) with (8 + - e1) by lia.
    rewrite Z.pow_add_r by lia. change (2 ^ 8) with 256. lia. }
  assert (e1 <= e2 <= -16) as He2b by lia.
  set (B := 2 ^ (e2 - e1)) in *.
  assert (0 < B) as HB by (apply Z.pow_pos_nonneg; lia).
  set (C := 2 ^ (- e2)).
  assert (0 < C) as HC by (apply Z.pow_pos_nonneg; lia).
  assert (B * C = 2 ^ (- e1)) as HBC.
  { unfold B, C. rewrite <- Z.pow_add_r by lia. f_equal. lia. }
  assert (B * m2 <= m1' < B * m2 + B) as Hm2b.
  { rewrite Hm2. pose proof (Z.mul_div_le m1' B HB).
    pose proof (Z.mul_succ_div_gt m1' B HB). lia. }
  assert (0 <= m2) as Hm2pos by (rewrite Hm2; apply Z.div_pos; lia).
  set (P := Z.pos m * 255) in *.
  assert (D * (P / D) <= P < D * (P / D) + D) as HPD.
  { pose proof (Z.mul_div_le P D HD). pose proof (Z.mul_succ_div_gt P D HD). lia. }
  assert (0 <= P / D) as Hfl by (apply Z.div_pos; unfold P; lia).
  assert (C * (m2 / C) <= m2 < C * (m2 / C) + C) as Hz.
  { pose proof (Z.mul_div_le m2 C HC). pose proof (Z.mul_succ_div_gt m2 C HC). lia. }
  assert (0 <= m2 / C) as Hzpos by (apply Z.div_pos; lia).
  assert (P / D <= m2 / C <= P / D + 1) as Hbounds.
  { clearbody M E A B C D P. clear Hm1 Hm2 He1 He2 Hcanon.
    set (fl := P / D) in *. set (z := m2 / C) in *.
    assert (A * B * C = D * 65536) as HABC by (rewrite <- HAe1, <- HBC; ring).
    split.
    - assert (A * (B * (C * fl)) <= M) as H1.
      { replace (A * (B * (C * fl))) with (A * B * C * fl) by ring. rewrite HABC.
        replace (D * 65536 * fl) with (D * fl * 65536) by ring. lia. }
      assert (B * (C * fl) < m1 + 1) as H2
        by (apply (Z.mul_lt_mono_pos_l A); lia).
      assert (C * fl < m2 + 1) as H3
        by (apply (Z.mul_lt_mono_pos_l B); lia).
      assert (fl < z + 1) as H4
        by (apply (Z.mul_lt_mono_pos_l C); lia).
      lia.
    - assert (B * (C * z) <= B * m2) as H1
        by (apply Z.mul_le_mono_nonneg_l; lia).
      assert (A * (B * (C * z)) <= A * (m1 + 1)) as H2
        by (apply Z.mul_le_mono_nonneg_l; lia).
      assert (D * z * 65536 < (P + D) * 65536) as H3.
      { replace (D * z * 65536) with (A * B * C * z) by (rewrite HABC; ring).
        replace (A * B * C * z) with (A * (B * (C * z))) by ring. lia. }
      assert (D * z < P + D) as H4
        by (apply (Z.mul_lt_mono_pos_r 65536); lia).
      assert (z < fl + 2) as H5
        by (apply (Z.mul_lt_mono_pos_l D); lia).
      lia. }
  clearbody M E. clear Hm2.
  destruct m2 as [|p|p]; [| |lia].
  - exists 0. split; [|reflexivity]. rewrite Z.div_0_l in Hbounds by lia. exact Hbounds.
  - destruct (Z.leb_spec e2 (128 - 24)) as [_|Hbig]; [|lia].
    exists (Z.shiftl (Z.pos p) e2). split; [|split; reflexivity].
    rewrite Z.shiftl_div_pow2 by lia. exact Hbounds.
Qed.

(** X15. For a stored value v between 0 and 1 the decoded byte is the
    truncated exact product, floor(v * 255), or that number plus one: the
    rounding of the binary32 product never lowers the byte and raises it
    by one at most. *)
Theorem pixel_to_uint8_accuracy h v :
  F32.valid v = true ->
  F32.leb F32.zero v = true ->
  F32.leb v F32.one = true ->
  Qfloor (SF.to_Q v * 255) <= pixel_to_uint8 h v <= Qfloor (SF.to_Q v * 255) + 1.
Proof.
  intros Hvalid H0 H1.
  destruct (unit_interval_cases v Hvalid H0 H1) as [[s ->]|[->|(m & e & -> & Hb & He)]].
  - assert (pixel_to_uint8 h (S754_zero s) = 0) as -> by (destruct s; reflexivity).
    assert (Qfloor (SF.to_Q (S754_zero s) * 255) = 0) as -> by reflexivity.
    lia.
  - assert (pixel_to_uint8 h F32.one = 255) as -> by (vm_compute; reflexivity).
    assert (Qfloor (SF.to_Q F32.one * 255) = 255) as -> by (vm_compute; reflexivity).
    lia.
  - assert (Qfloor (SF.to_Q (S754_finite false m e) * 255) = Z.pos m * 255 / 2 ^ (- e))
      as ->.
    { unfold SF.to_Q. destruct (Z.leb_spec 0 e) as [Hpos|_]; [lia|].
      cbn [cond_Zopp]. unfold Qmult, Qfloor. cbn [Qnum Qden].
      rewrite Pos.mul_1_r, Z2Pos.id by (apply Z.pow_pos_nonneg; lia). reflexivity. }
    unfold pixel_to_uint8, F32.astype_uint8, F32.mul.
    destruct (mul_255_floor m e Hb He) as (z & Hz & Hmul).
    destruct (mul_255_below_one m e Hb He) as (z' & Hz' & Hmul').
    change F32.prec with 24. change F32.emax with 128.
    destruct (SFmul 24 128 (S754_finite false m e) F32.of_255) as [s|s| |s m2 e2];
      try contradiction.
    + subst z. cbn. lia.
    + destruct Hmul as [-> ->]. destruct Hmul' as [_ ->].
      cbn [SF.trunc cond_Zopp].
      replace ((0 <=? Z.shiftl (Z.pos m2) e2) && (Z.shiftl (Z.pos m2) e2 <=? 255))
        with true by (symmetry; apply andb_true_intro; split; apply Z.leb_le; lia).
      exact Hz.
Qed.

Lemma pixel_to_uint8_accuracy_witness :
  Qfloor (SF.to_Q Sample.f0_3125 * 255) <= pixel_to_uint8 Sample.host Sample.f0_3125
    <= Qfloor (SF.to_Q Sample.f0_3125 * 255) + 1.
Proof.
  apply (pixel_to_uint8_accuracy Sample.host Sample.f0_3125); reflexivity.
Defined.

(** ** [get_texture_data]: brighter values never decode darker *)

Lemma iter_pos_nat {A} (f : A -> A) p : forall x,
  SpecFloat.iter_pos f p x = Nat.iter (Pos.to_nat p) f x.
Proof.
  induction p as [p IH|p IH|]; intros x; cbn [SpecFloat.iter_pos].
  - rewrite !IH, Pos2Nat.inj_xI. cbn [Nat.iter]. rewrite <- Nat.iter_succ_r.
    rewrite <- Nat.iter_add. f_equal. lia.
  - rewrite !IH, Pos2Nat.inj_xO. rewrite <- Nat.iter_add. f_equal. lia.
  - reflexivity.
Qed.

(** The record after one or more shifts of a mantissa that starts
    exact: quotient, round bit and sticky bit. *)
Lemma shr_1_iter M i :
  0 <= M ->
  Nat.iter (S i) shr_1 (Build_shr_record M false false) =
    Build_shr_record (M / 2 ^ Z.of_nat (S i))
      (Z.odd (M / 2 ^ Z.of_nat i))
      (negb (M mod 2 ^ Z.of_nat i =? 0)).
Proof.
  intros HM. induction i as [|i IH].
  - cbn [Nat.iter]. change (2 ^ Z.of_nat 0) with 1. rewrite Z.div_1_r, Z.mod_1_r.
    change (2 ^ Z.of_nat 1) with 2. rewrite <- Z.div2_div.
    destruct M as [|[p|p|]|p]; try reflexivity; lia.
  - rewrite Nat.iter_succ, IH.
    set (q := M / 2 ^ Z.of_nat (S i)).
    assert (0 <= q) as Hq by (apply Z.div_pos; lia).
    assert (M / 2 ^ Z.of_nat (S (S i)) = q / 2) as ->.
    { unfold q. rewrite Z.div_div by lia. f_equal.
      rewrite (Nat2Z.inj_succ (S i)), Z.pow_succ_r by lia. lia. }
    assert (negb (M mod 2 ^ Z.of_nat (S i) =? 0) =
            Z.odd (M / 2 ^ Z.of_nat i) || negb (M mod 2 ^ Z.of_nat i =? 0)) as ->.
    { rewrite (Nat2Z.inj_succ i), Z.pow_succ_r by lia.
      rewrite (Z.mul_comm 2), Z.rem_mul_r by lia.
      pose proof (Z.mod_pos_bound M (2 ^ Z.of_nat i) ltac:(lia)) as Hr.
      pose proof (Zmod_odd (M / 2 ^ Z.of_nat i)) as Hodd.
      destruct (Z.odd (M / 2 ^ Z.of_nat i)); rewrite Hodd.
      - cbn [orb]. destruct (Z.eqb_spec (M mod 2 ^ Z.of_nat i + 2 ^ Z.of_nat i * 1) 0);
          [lia|reflexivity].
      - cbn [orb]. rewrite Z.mul_0_r, Z.add_0_r. reflexivity. }
    unfold shr_1. rewrite <- Z.div2_div.
    destruct q as [|[p|p|]|p]; try reflexivity; lia.
Qed.

Lemma round_after_shift M e n :
  0 <= M ->
  let mrs := fst (shr (Build_shr_record M false false) e n) in
  round_nearest_even (shr_m mrs) (loc_of_shr_record mrs) =
    M / 2 ^ Z.max 0 n + (if rounds_up M (Z.max 0 n) then 1 else 0).
Proof.
  intros HM. cbv zeta. unfold rounds_up.
  destruct n as [|p|p]; cbn [shr fst].
  - change (Z.max 0 0) with 0. change (2 ^ 0) with 1.
    rewrite Z.div_1_r, Z.mod_1_r.
    replace ((1 <? 2 * 0) || (2 * 0 =? 1) && Z.odd M) with false by reflexivity.
    cbn. lia.
  - rewrite iter_pos_nat.
    destruct (Pos2Nat.is_succ p) as [i Hi]. rewrite Hi, (shr_1_iter M i HM).
    assert (Z.max 0 (Z.pos p) = Z.of_nat (S i)) as -> by lia.
    cbn [shr_m loc_of_shr_record].
    set (q := M / 2 ^ Z.of_nat (S i)).
    rewrite (Nat2Z.inj_succ i), Z.pow_succ_r by lia.
    rewrite (Z.mul_comm 2 (2 ^ Z.of_nat i)), Z.rem_mul_r by lia.
    pose proof (Z.mod_pos_bound M (2 ^ Z.of_nat i) ltac:(lia)) as Hr.
    pose proof (Zmod_odd (M / 2 ^ Z.of_nat i)) as Hodd.
    set (lo := M mod 2 ^ Z.of_nat i) in *. set (h := 2 ^ Z.of_nat i) in *.
    destruct (Z.odd (M / h)); rewrite Hodd.
    + destruct (Z.eqb_spec lo 0) as [Hlo|Hlo]; cbn [negb round_nearest_even].
      * replace (h * 2 <? 2 * (lo + h * 1)) with false by (symmetry; apply Z.ltb_ge; lia).
        replace (2 * (lo + h * 1) =? h * 2) with true by (symmetry; apply Z.eqb_eq; lia).
        cbn [orb andb]. rewrite <- Z.negb_odd. destruct (Z.odd q); cbn; lia.
      * replace (h * 2 <? 2 * (lo + h * 1)) with true by (symmetry; apply Z.ltb_lt; lia).
        reflexivity.
    + replace (h * 2 <? 2 * (lo + h * 0)) with false by (symmetry; apply Z.ltb_ge; lia).
      replace (2 * (lo + h * 0) =? h * 2) with false by (symmetry; apply Z.eqb_neq; lia).
      cbn [orb andb]. destruct (lo =? 0); cbn; lia.
  - change (Z.max 0 (Z.neg p)) with 0. change (2 ^ 0) with 1.
    rewrite Z.div_1_r, Z.mod_1_r.
    replace ((1 <? 2 * 0) || (2 * 0 =? 1) && Z.odd M) with false by reflexivity.
    cbn. lia.
Qed.

Lemma binary_round_aux_exact prec emax M E :
  0 <= M ->
  let n := Z.max 0 (fexp prec emax (Zdigits2 M + E) - E) in
  let e1 := E + n in
  let m1' := M / 2 ^ n + (if rounds_up M n then 1 else 0) in
  let e2 := e1 + Z.max 0 (fexp prec emax (Zdigits2 m1' + e1) - e1) in
  let m2 := m1' / 2 ^ (e2 - e1) in
  binary_round_aux prec emax false M E loc_Exact =
    match m2 with
    | Z0 => S754_zero false
    | Zpos m => if e2 <=? emax - prec then S754_finite false m e2 else S754_infinity false
    | Zneg _ => S754_nan
    end.
Proof.
  intros HM. cbv zeta. unfold binary_round_aux, shr_fexp.
  change (shr_record_of_loc M loc_Exact) with (Build_shr_record M false false).
  pose proof (round_after_shift M E (fexp prec emax (Zdigits2 M + E) - E) HM) as Hround.
  pose proof (shr_spec (Build_shr_record M false false) E
                (fexp prec emax (Zdigits2 M + E) - E) HM) as [_ He1].
  cbv zeta in Hround.
  destruct (shr (Build_shr_record M false false) E _) as [mrs' e'].
  cbn [fst snd] in Hround, He1. rewrite Hround, He1.
  set (m1' := M / 2 ^ Z.max 0 (fexp prec emax (Zdigits2 M + E) - E) +
              (if rounds_up M (Z.max 0 (fexp prec emax (Zdigits2 M + E) - E))
               then 1 else 0)).
  set (e1 := E + Z.max 0 (fexp prec emax (Zdigits2 M + E) - E)).
  assert (0 <= m1') as Hm1'.
  { unfold m1'. assert (0 <= M / 2 ^ Z.max 0 (fexp prec emax (Zdigits2 M + E) - E))
      by (apply Z.div_pos; [lia|apply Z.pow_pos_nonneg; lia]).
    destruct (rounds_up _ _); lia. }
  change (shr_record_of_loc m1' loc_Exact) with (Build_shr_record m1' false false).
  pose proof (shr_spec (Build_shr_record m1' false false) e1
                (fexp prec emax (Zdigits2 m1' + e1) - e1) Hm1') as [Hm2 He2].
  destruct (shr (Build_shr_record m1' false false) e1 _) as [mrs'' e''].
  cbn [fst snd shr_m] in Hm2, He2. rewrite Hm2, He2.
  replace (e1 + Z.max 0 (fexp prec emax (Zdigits2 m1' + e1) - e1) - e1)
    with (Z.max 0 (fexp prec emax (Zdigits2 m1' + e1) - e1)) by lia.
  reflexivity.
Qed.

Lemma valid_mantissa m e :
  bounded 24 128 m e = true -> Z.pos m < 2 ^ 24 /\ -149 <= e.
Proof.
  intros Hb. unfold bounded, canonical_mantissa in Hb.
  apply andb_prop in Hb as [Hcanon _]. apply Z.eqb_eq in Hcanon.
  unfold fexp, emin in Hcanon.
  pose proof (Zdigits2_upper (Z.pos m) ltac:(lia)) as Hup. cbn [Zdigits2] in Hup.
  assert (Z.pos (digits2_pos m) <= 24) by lia. split; [|lia].
  eapply Z.lt_le_trans; [exact Hup|]. apply Z.pow_le_mono_r; lia.
Qed.

(** Digits of the scaled product: between 24 and 48. *)
Lemma product_digits m :
  Z.pos m < 2 ^ 24 ->
  24 <= Zdigits2 (Z.pos m * 255 * 65536) <= 48.
Proof.
  intros Hm. set (M := Z.pos m * 255 * 65536).
  assert (2 ^ 23 <= M) as Hlo by (change (2 ^ 23) with 8388608; unfold M; lia).
  split.
  - pose proof (Zdigits2_upper M ltac:(lia)) as Hup.
    pose proof (Zdigits2_nonneg M) as Hd.
    destruct (Z.le_gt_cases 24 (Zdigits2 M)) as [|Hlt]; [assumption|exfalso].
    assert (2 ^ Zdigits2 M <= 2 ^ 23) by (apply Z.pow_le_mono_r; lia). lia.
  - apply Zdigits2_le; [lia|lia|]. change (2 ^ 48) with (16777216 * 16777216).
    change (2 ^ 24) with 16777216 in Hm. unfold M. nia.
Qed.

Lemma pixel_closed_form h m e :
  bounded 24 128 m e = true ->
  e <= -24 ->
  pixel_to_uint8 h (S754_finite false m e) = byte_of m e.
Proof.
  intros Hb He. destruct (valid_mantissa m e Hb) as [Hm Hemin].
  pose proof (product_digits m Hm) as Hd.
  unfold pixel_to_uint8, F32.astype_uint8, F32.mul, F32.of_255.
  change F32.prec with 24. change F32.emax with 128. cbn [SFmul xorb].
  replace (Z.pos (m * 16711680)) with (Z.pos m * 255 * 65536) by lia.
  rewrite (binary_round_aux_exact 24 128 (Z.pos m * 255 * 65536) (e + -16) ltac:(lia)).
  cbv zeta. unfold byte_of. cbv zeta. unfold fexp, emin.
  replace (e + -16) with (e - 16) by lia.
  change (3 - 128 - 24) with (-149).
  set (M := Z.pos m * 255 * 65536) in *. set (E := e - 16) in *.
  set (n := Z.max 0 (Z.max (Zdigits2 M + E - 24) (-149) - E)).
  set (m1' := M / 2 ^ n + (if rounds_up M n then 1 else 0)).
  set (e1 := E + n).
  assert (0 <= n) as Hn by lia.
  assert (E <= e1 <= -16) as He1 by (unfold e1, n, E in *; lia).
  assert (0 < 2 ^ n) as Hpn by (apply Z.pow_pos_nonneg; lia).
  assert (0 < 2 ^ (- e1)) as Hpe1 by (apply Z.pow_pos_nonneg; lia).
  assert (2 ^ n * 2 ^ (- e1) = 2 ^ (- E)) as Hscale.
  { rewrite <- Z.pow_add_r by lia. f_equal. unfold e1. lia. }
  assert (M < 255 * 2 ^ (- E)) as HME.
  { unfold M, E. replace (- (e - 16)) with (24 + (16 + (- e - 24))) by lia.
    assert (0 < 2 ^ (- e - 24)) by (apply Z.pow_pos_nonneg; lia).
    rewrite !Z.pow_add_r by lia. change (2 ^ 16) with 65536.
    change (2 ^ 24) with 16777216 in *. nia. }
  assert (0 <= M / 2 ^ n < 255 * 2 ^ (- e1)) as Hm1.
  { split; [apply Z.div_pos; lia|].
    apply Z.div_lt_upper_bound; [lia|]. rewrite <- Hscale in HME. lia. }
  assert (0 <= m1' <= 255 * 2 ^ (- e1)) as Hm1'
    by (unfold m1'; destruct (rounds_up M n); lia).
  assert (Zdigits2 m1' <= 8 - e1) as Hd'.
  { apply Zdigits2_le; [lia|lia|].
    replace (8 - e1) with (8 + - e1) by lia.
    rewrite Z.pow_add_r by lia. change (2 ^ 8) with 256. lia. }
  set (e2 := e1 + Z.max 0 (Z.max (Zdigits2 m1' + e1 - 24) (-149) - e1)).
  assert (e1 <= e2 <= -16) as He2 by (unfold e2; lia).
  assert (0 < 2 ^ (e2 - e1)) as Hp21 by (apply Z.pow_pos_nonneg; lia).
  assert (0 < 2 ^ (- e2)) as Hpe2 by (apply Z.pow_pos_nonneg; lia).
  assert (m1' / 2 ^ (e2 - e1) / 2 ^ (- e2) = m1' / 2 ^ (- e1)) as Hdiv.
  { rewrite Z.div_div by lia. f_equal.
    rewrite <- Z.pow_add_r by lia. f_equal. lia. }
  assert (0 <= m1' / 2 ^ (- e1) <= 255) as Hbyte.
  { split; [apply Z.div_pos; lia|]. apply Z.div_le_upper_bound; lia. }
  assert (0 <= m1' / 2 ^ (e2 - e1)) as Hm2 by (apply Z.div_pos; lia).
  destruct (m1' / 2 ^ (e2 - e1)) as [|p|p] eqn:Hm2eq; [| |lia].
  - cbn [SF.trunc]. rewrite <- Hdiv. reflexivity.
  - destruct (Z.leb_spec e2 (128 - 24)) as [_|Hbig]; [|lia].
    cbn [SF.trunc cond_Zopp]. rewrite Z.shiftl_div_pow2 by lia. rewrite Hdiv.
    replace ((0 <=? m1' / 2 ^ (- e1)) && (m1' / 2 ^ (- e1) <=? 255)) with true
      by (symmetry; apply andb_true_intro; split; apply Z.leb_le; lia).
    reflexivity.
Qed.

(** The shift of [byte_of] is the distance to the binade's exponent. *)
Lemma byte_of_unfold m e :
  Z.pos m < 2 ^ 24 ->
  let M := Z.pos m * 255 * 65536 in
  let E := e - 16 in
  let e1 := Z.max (Zdigits2 M + E - 24) (-149) in
  0 <= e1 - E /\
  byte_of m e =
    (M / 2 ^ (e1 - E) + (if rounds_up M (e1 - E) then 1 else 0)) / 2 ^ (- e1).
Proof.
  intros Hm. cbv zeta. pose proof (product_digits m Hm) as Hd.
  unfold byte_of. cbv zeta.
  set (M := Z.pos m * 255 * 65536) in *. set (E := e - 16).
  set (e1 := Z.max (Zdigits2 M + E - 24) (-149)).
  assert (Z.max 0 (e1 - E) = e1 - E) as -> by lia.
  split; [lia|]. do 3 f_equal. lia.
Qed.

Lemma byte_of_floor m e :
  Z.pos m < 2 ^ 24 ->
  e <= -24 ->
  Z.pos m * 255 / 2 ^ (- e) <= byte_of m e <= Z.pos m * 255 / 2 ^ (- e) + 1.
Proof.
  intros Hm He. pose proof (product_digits m Hm) as Hd.
  destruct (byte_of_unfold m e Hm) as [Hn ->].
  set (P := Z.pos m * 255).
  replace (Z.pos m * 255 * 65536) with (P * 65536) in * by reflexivity.
  set (M := P * 65536) in *. set (E := e - 16) in *.
  set (e1 := Z.max (Zdigits2 M + E - 24) (-149)) in *.
  set (n := e1 - E) in *.
  assert (e1 <= -16) as He1 by (unfold e1, E; lia).
  set (A := 2 ^ n). set (C := 2 ^ (- e1)). set (D := 2 ^ (- e)).
  assert (0 < A) as HA by (apply Z.pow_pos_nonneg; lia).
  assert (0 < C) as HC by (apply Z.pow_pos_nonneg; lia).
  assert (0 < D) as HD by (apply Z.pow_pos_nonneg; lia).
  assert (A * C = D * 65536) as HAC.
  { unfold A, C, D. rewrite <- Z.pow_add_r by lia. change 65536 with (2 ^ 16).
    rewrite <- Z.pow_add_r by lia. f_equal. unfold n, E. lia. }
  assert (A <= D) as HAD by (apply Z.pow_le_mono_r; unfold n, E; lia).
  set (m1 := M / A).
  assert (A * m1 <= M < A * m1 + A) as Hm1.
  { unfold m1. pose proof (Z.mul_div_le M A HA).
    pose proof (Z.mul_succ_div_gt M A HA). lia. }
  set (m1' := m1 + (if rounds_up M n then 1 else 0)).
  assert (m1 <= m1' <= m1 + 1) as Hm1' by (unfold m1'; destruct (rounds_up M n); lia).
  set (fl := P / D). set (z := m1' / C).
  assert (D * fl <= P < D * fl + D) as Hfl.
  { unfold fl. pose proof (Z.mul_div_le P D HD).
    pose proof (Z.mul_succ_div_gt P D HD). lia. }
  assert (C * z <= m1' < C * z + C) as Hz.
  { unfold z. pose proof (Z.mul_div_le m1' C HC).
    pose proof (Z.mul_succ_div_gt m1' C HC). lia. }
  assert (M = P * 65536) as HM by reflexivity.
  clearbody fl z m1' m1 A C D M. split.
  - assert (A * (C * fl) <= M) as H1.
    { replace (A * (C * fl)) with (A * C * fl) by ring. rewrite HAC. nia. }
    assert (C * fl < m1 + 1) as H2 by (apply (Z.mul_lt_mono_pos_l A); lia).
    assert (fl < z + 1) as H3 by (apply (Z.mul_lt_mono_pos_l C); lia).
    lia.
  - assert (A * (C * z) <= A * (m1 + 1)) as H1
      by (apply Z.mul_le_mono_nonneg_l; lia).
    assert (D * z * 65536 < (P + D) * 65536) as H2.
    { replace (D * z * 65536) with (A * C * z) by (rewrite HAC; ring).
      replace (A * C * z) with (A * (C * z)) by ring. lia. }
    assert (D * z < P + D) as H3 by (apply (Z.mul_lt_mono_pos_r 65536); lia).
    assert (z < fl + 2) as H4 by (apply (Z.mul_lt_mono_pos_l D); lia).
    lia.
Qed.

Lemma pow2_le_inv a b : 0 <= a -> 0 <= b -> 2 ^ a <= 2 ^ b -> a <= b.
Proof.
  intros Ha Hb Hle. destruct (Z.le_gt_cases a b) as [|Hgt]; [assumption|exfalso].
  assert (2 ^ b < 2 ^ a) by (apply Z.pow_lt_mono_r; lia). lia.
Qed.

Lemma pow2_lt_inv a b : 0 <= a -> 0 <= b -> 2 ^ a < 2 ^ b -> a < b.
Proof.
  intros Ha Hb Hlt. destruct (Z.lt_ge_cases a b) as [|Hge]; [assumption|exfalso].
  assert (2 ^ b <= 2 ^ a) by (apply Z.pow_le_mono_r; lia). lia.
Qed.

(** The critical case of monotonicity: two products in the same integer
    cell, the smaller one rounded up to the next integer. *)
Lemma byte_of_round_up_carries m e m' e' T :
  Z.pos m < 2 ^ 24 -> Z.pos m' < 2 ^ 24 ->
  -149 <= e <= -24 -> -149 <= e' <= -24 ->
  Z.pos m * 255 * 2 ^ (- e') <= Z.pos m' * 255 * 2 ^ (- e) ->
  1 <= T ->
  Z.pos m * 255 < T * 2 ^ (- e) ->
  Z.pos m' * 255 < T * 2 ^ (- e') ->
  byte_of m e = T ->
  T <= byte_of m' e'.
Proof.
  intros Hm Hm' He He' HX HT HPT HPT' Hb.
  pose proof (product_digits m Hm) as Hd. pose proof (product_digits m' Hm') as Hd'.
  destruct (byte_of_unfold m e Hm) as [Hn Hbyte]. rewrite Hbyte in Hb. clear Hbyte.
  destruct (byte_of_unfold m' e' Hm') as [Hn' ->].
  set (P := Z.pos m * 255) in *. set (P' := Z.pos m' * 255) in *.
  replace (Z.pos m * 255 * 65536) with (P * 65536) in * by reflexivity.
  replace (Z.pos m' * 255 * 65536) with (P' * 65536) in * by reflexivity.
  set (M := P * 65536) in *. set (M' := P' * 65536) in *.
  set (E := e - 16) in *. set (E' := e' - 16) in *.
  set (d := Zdigits2 M) in *. set (d' := Zdigits2 M') in *.
  set (e1 := Z.max (d + E - 24) (-149)) in *.
  set (e1' := Z.max (d' + E' - 24) (-149)) in *.
  assert (0 < M) as HMpos by (unfold M, P; lia).
  assert (0 < M') as HMpos' by (unfold M', P'; lia).
  pose proof (Zdigits2_upper M ltac:(lia)) as HdU. fold d in HdU.
  pose proof (Zdigits2_lower M HMpos) as HdL. fold d in HdL.
  pose proof (Zdigits2_upper M' ltac:(lia)) as HdU'. fold d' in HdU'.
  pose proof (Zdigits2_lower M' HMpos') as HdL'. fold d' in HdL'.
  set (D := 2 ^ (- e)) in *. set (D' := 2 ^ (- e')) in *.
  assert (0 < D) as HD by (apply Z.pow_pos_nonneg; lia).
  assert (0 < D') as HD' by (apply Z.pow_pos_nonneg; lia).
  assert (2 ^ (- E) = D * 65536) as HDE.
  { unfold D, E. change 65536 with (2 ^ 16). rewrite <- Z.pow_add_r by lia. f_equal. lia. }
  assert (2 ^ (- E') = D' * 65536) as HDE'.
  { unfold D', E'. change 65536 with (2 ^ 16). rewrite <- Z.pow_add_r by lia. f_equal. lia. }
  (* the smaller product *)
  set (A := 2 ^ (e1 - E)) in *. set (C := 2 ^ (- e1)) in *.
  assert (e1 <= -16) as He1 by (unfold e1, E; lia).
  assert (0 < A) as HA by (apply Z.pow_pos_nonneg; lia).
  assert (0 < C) as HC by (apply Z.pow_pos_nonneg; lia).
  assert (A * C = D * 65536) as HAC.
  { rewrite <- HDE. unfold A, C. rewrite <- Z.pow_add_r by lia. f_equal. lia. }
  set (m1 := M / A) in *.
  assert (A * m1 <= M < A * m1 + A) as Hm1.
  { unfold m1. pose proof (Z.mul_div_le M A HA).
    pose proof (Z.mul_succ_div_gt M A HA). lia. }
  assert (0 <= m1) as Hm1pos by (apply Z.div_pos; lia).
  assert (m1 < T * C) as Hm1T.
  { apply (Z.mul_lt_mono_pos_l A); [lia|].
    replace (A * (T * C)) with (T * (A * C)) by ring. rewrite HAC.
    assert (M < T * D * 65536) by (unfold M; lia). lia. }
  assert (T * C <= m1 + (if rounds_up M (e1 - E) then 1 else 0)) as Hm1'T.
  { pose proof (Z.mul_div_le (m1 + (if rounds_up M (e1 - E) then 1 else 0)) C HC) as H.
    rewrite Hb in H. lia. }
  destruct (rounds_up M (e1 - E)) eqn:Hup; [|lia].
  assert (m1 + 1 = T * C) as Hm1eq by lia.
  (* the smaller product is a normal number of [2^(t-1), 2^t) *)
  assert (m1 < 2 ^ 24) as Hm1lt.
  { apply Z.div_lt_upper_bound; [lia|].
    eapply Z.lt_le_trans; [exact HdU|].
    replace d with ((e1 - E) + (d - (e1 - E))) at 1 by lia.
    assert (0 <= d - (e1 - E) <= 24) by (unfold e1, E in *; lia).
    rewrite Z.pow_add_r by lia. fold A.
    apply Z.mul_le_mono_nonneg_l; [lia|]. apply Z.pow_le_mono_r; lia. }
  assert (-24 <= e1) as He1lo.
  { assert (C <= 2 ^ 24) as HC24 by nia.
    unfold C in HC24. apply pow2_le_inv in HC24; lia. }
  assert (e1 = d + E - 24) as He1eq by (unfold e1 in *; lia).
  set (t := d + E) in *.
  assert (T * C <= 2 ^ 24) as HTC by lia.
  assert (2 ^ 24 = 2 ^ t * C) as H24.
  { unfold C. rewrite <- Z.pow_add_r by lia. f_equal. lia. }
  assert (T <= 2 ^ t) as HTt.
  { apply (Z.mul_le_mono_pos_r _ _ C); lia. }
  (* the larger product lies in the same binade *)
  assert (M' < 2 ^ (t - E')) as HM'up.
  { replace (t - E') with (t + - E') by lia. rewrite Z.pow_add_r, HDE' by (unfold E'; lia).
    assert (M' < T * (D' * 65536)) by (unfold M'; lia).
    assert (T * (D' * 65536) <= 2 ^ t * (D' * 65536))
      by (apply Z.mul_le_mono_nonneg_r; lia).
    lia. }
  assert (d' <= t - E') as Hd'up
    by (apply Zdigits2_le; [lia|unfold E'; lia|exact HM'up]).
  assert (M * (D' * 65536) <= M' * (D * 65536)) as HXM by (unfold M, M'; nia).
  assert (t <= d' + E') as Hd'lo.
  { assert (2 ^ d * 2 ^ (- E') < 2 ^ (d' + 1) * 2 ^ (- E)) as Hpow.
    { rewrite HDE, HDE', (Z.pow_add_r 2 d' 1) by lia. change (2 ^ 1) with 2. nia. }
    rewrite <- !Z.pow_add_r in Hpow by (unfold E, E'; lia).
    apply pow2_lt_inv in Hpow; unfold E, E', t in *; lia. }
  assert (e1' = e1) as He1' by (unfold e1'; lia).
  rewrite He1' in *. fold C.
  set (A' := 2 ^ (e1 - E')) in *.
  assert (0 < A') as HA' by (apply Z.pow_pos_nonneg; lia).
  assert (A' * C = D' * 65536) as HAC'.
  { rewrite <- HDE'. unfold A', C. rewrite <- Z.pow_add_r by lia. f_equal. lia. }
  set (m1_ := M' / A').
  assert (A' * m1_ <= M' < A' * m1_ + A') as Hm1_.
  { unfold m1_. pose proof (Z.mul_div_le M' A' HA').
    pose proof (Z.mul_succ_div_gt M' A' HA'). lia. }
  assert (M * A' <= M' * A) as HXA.
  { apply (Z.mul_le_mono_pos_r _ _ C); [lia|].
    replace (M * A' * C) with (M * (A' * C)) by ring.
    replace (M' * A * C) with (M' * (A * C)) by ring.
    rewrite HAC, HAC'. exact HXM. }
  assert (m1 <= m1_) as Hle.
  { apply Z.div_le_lower_bound; [lia|].
    apply (Z.mul_le_mono_pos_r _ _ A); [lia|]. nia. }
  assert (m1_ < T * C) as Hlt.
  { apply (Z.mul_lt_mono_pos_l A'); [lia|].
    replace (A' * (T * C)) with (T * (A' * C)) by ring. rewrite HAC'.
    assert (M' < T * D' * 65536) by (unfold M'; lia). lia. }
  assert (m1_ = m1) as Hsame by lia.
  (* the larger product rounds up as well *)
  assert (rounds_up M' (e1 - E') = true) as Hup'.
  { unfold rounds_up in *. fold A A' in Hup |- *. fold m1 in Hup. fold m1_. rewrite Hsame.
    rewrite Z.mod_eq in Hup |- * by lia. fold m1 in Hup. fold m1_. rewrite Hsame.
    set (r := M - A * m1) in *. set (r' := M' - A' * m1).
    assert (r * A' <= r' * A) as Hrr by (unfold r, r'; nia).
    assert (A <= 2 * r) as Hhalf.
    { apply orb_prop in Hup as [Hgt|Htie].
      - apply Z.ltb_lt in Hgt. lia.
      - apply andb_prop in Htie as [Htie _]. apply Z.eqb_eq in Htie. lia. }
    assert (A' <= 2 * r') as Hhalf'.
    { apply (Z.mul_le_mono_pos_r _ _ A); [lia|].
      assert (A * A' <= 2 * r * A') by (apply Z.mul_le_mono_nonneg_r; lia). lia. }
    destruct (Z.ltb_spec A' (2 * r')) as [|Hle']; [reflexivity|].
    assert (2 * r' = A') as Htie' by lia.
    assert (2 * r <= A) as Hr.
    { apply (Z.mul_le_mono_pos_r _ _ A'); [lia|].
      assert (2 * r' * A = A' * A) by (rewrite Htie'; ring). lia. }
    apply orb_prop in Hup as [Hgt|Htie]; [apply Z.ltb_lt in Hgt; lia|].
    apply andb_prop in Htie as [_ Hodd]. rewrite Hodd.
    rewrite (proj2 (Z.eqb_eq _ _) Htie'). reflexivity. }
  rewrite Hup'. fold A' m1_. rewrite Hsame, Hm1eq.
  rewrite Z.div_mul by lia. lia.
Qed.

Lemma byte_of_mono m e m' e' :
  Z.pos m < 2 ^ 24 -> Z.pos m' < 2 ^ 24 ->
  -149 <= e <= -24 -> -149 <= e' <= -24 ->
  Z.pos m * 2 ^ (- e') <= Z.pos m' * 2 ^ (- e) ->
  byte_of m e <= byte_of m' e'.
Proof.
  intros Hm Hm' He He' HX.
  pose proof (byte_of_floor m e Hm ltac:(lia)) as Hb.
  pose proof (byte_of_floor m' e' Hm' ltac:(lia)) as Hb'.
  set (P := Z.pos m * 255) in *. set (P' := Z.pos m' * 255) in *.
  set (D := 2 ^ (- e)) in *. set (D' := 2 ^ (- e')) in *.
  assert (0 < D) as HD by (apply Z.pow_pos_nonneg; lia).
  assert (0 < D') as HD' by (apply Z.pow_pos_nonneg; lia).
  assert (P * D' <= P' * D) as HXP by (unfold P, P'; lia).
  set (fl := P / D) in *. set (fl' := P' / D') in *.
  assert (D * fl <= P < D * fl + D) as Hfl.
  { unfold fl. pose proof (Z.mul_div_le P D HD).
    pose proof (Z.mul_succ_div_gt P D HD). lia. }
  assert (D' * fl' <= P' < D' * fl' + D') as Hfl'.
  { unfold fl'. pose proof (Z.mul_div_le P' D' HD').
    pose proof (Z.mul_succ_div_gt P' D' HD'). lia. }
  assert (0 <= fl) as Hflpos by (apply Z.div_pos; unfold P; lia).
  assert (fl <= fl') as Hmono.
  { assert (D * fl * D' <= P * D') as H1 by (apply Z.mul_le_mono_nonneg_r; lia).
    assert (D * (fl * D') < D * (D' * fl' + D')) as H2.
    { assert (P' * D < (D' * fl' + D') * D) by (apply Z.mul_lt_mono_pos_r; lia). lia. }
    apply Z.mul_lt_mono_pos_l in H2; [|lia].
    assert (D' * fl < D' * (fl' + 1)) as H3 by lia.
    apply Z.mul_lt_mono_pos_l in H3; lia. }
  destruct (Z.eq_dec fl fl') as [Heq|Hne]; [|lia].
  destruct (Z.eq_dec (byte_of m e) fl) as [Hlow|Hhigh]; [lia|].
  assert (byte_of m e = fl + 1) as Hup by lia.
  rewrite Hup.
  apply (byte_of_round_up_carries m e m' e' (fl + 1)); try assumption; lia.
Qed.

Lemma leb_value m e m' e' :
  bounded 24 128 m e = true ->
  bounded 24 128 m' e' = true ->
  e <= 0 -> e' <= 0 ->
  F32.leb (S754_finite false m e) (S754_finite false m' e') = true ->
  Z.pos m * 2 ^ (- e') <= Z.pos m' * 2 ^ (- e).
Proof.
  intros Hb Hb' He He' Hle.
  destruct (valid_mantissa m e Hb) as [Hm Hemin].
  destruct (valid_mantissa m' e' Hb') as [Hm' Hemin'].
  unfold F32.leb, SFleb in Hle. cbn [SFcompare] in Hle.
  destruct (Z.compare_spec e e') as [Heq|Hlt|Hgt]; [| |discriminate].
  - subst e'. apply Z.mul_le_mono_nonneg_r; [apply Z.pow_nonneg; lia|].
    apply Pos2Z.pos_le_pos. unfold Pos.le, Pos.compare.
    destruct (Pos.compare_cont Eq m m'); [discriminate|discriminate|discriminate].
  - unfold bounded, canonical_mantissa in Hb'.
    apply andb_prop in Hb' as [Hcanon _]. apply Z.eqb_eq in Hcanon.
    unfold fexp, emin in Hcanon.
    assert (Z.pos (digits2_pos m') = 24) as Hd by lia.
    pose proof (Zdigits2_lower (Z.pos m') ltac:(lia)) as Hlo. cbn [Zdigits2] in Hlo.
    rewrite Hd in Hlo.
    replace (- e) with ((e' - e) + - e') by lia. rewrite Z.pow_add_r by lia.
    assert (2 <= 2 ^ (e' - e)) as H2.
    { change 2 with (2 ^ 1) at 1. apply Z.pow_le_mono_r; lia. }
    assert (0 < 2 ^ (- e')) as Hp by (apply Z.pow_pos_nonneg; lia).
    change (2 ^ 24) with 16777216 in *.
    assert (Z.pos m * 2 ^ (- e') <= Z.pos m' * 2 * 2 ^ (- e')) as H1
      by (apply Z.mul_le_mono_nonneg_r; lia).
    assert (Z.pos m' * 2 * 2 ^ (- e') <= Z.pos m' * 2 ^ (e' - e) * 2 ^ (- e')) as H3.
    { apply Z.mul_le_mono_nonneg_r; [lia|]. apply Z.mul_le_mono_nonneg_l; lia. }
    lia.
Qed.

(** X16. Decoding keeps the order of the stored values: of two values
    between 0 and 1 the larger one never gets the smaller byte. *)
Theorem pixel_to_uint8_monotone h v v' :
  F32.valid v = true -> F32.valid v' = true ->
  F32.leb F32.zero v = true -> F32.leb v F32.one = true ->
  F32.leb F32.zero v' = true -> F32.leb v' F32.one = true ->
  F32.leb v v' = true ->
  pixel_to_uint8 h v <= pixel_to_uint8 h v'.
Proof.
  intros Hv Hv' H0 H1 H0' H1' Hle.
  pose proof (astype_uint8_range (cast_undefined h) (F32.mul v F32.of_255)) as Hr.
  pose proof (astype_uint8_range (cast_undefined h) (F32.mul v' F32.of_255)) as Hr'.
  fold (pixel_to_uint8 h v) in Hr. fold (pixel_to_uint8 h v') in Hr'.
  destruct (unit_interval_cases v Hv H0 H1) as [[s ->]|[->|(m & e & -> & Hb & He)]].
  - assert (pixel_to_uint8 h (S754_zero s) = 0) as -> by (destruct s; reflexivity). lia.
  - destruct (unit_interval_cases v' Hv' H0' H1')
      as [[s' ->]|[->|(m' & e' & -> & Hb' & He')]].
    + discriminate.
    + lia.
    + exfalso. unfold F32.leb, SFleb, F32.one in Hle. cbn [SFcompare] in Hle.
      destruct (Z.compare_spec (-23) e'); try discriminate; lia.
  - destruct (unit_interval_cases v' Hv' H0' H1')
      as [[s' ->]|[->|(m' & e' & -> & Hb' & He')]].
    + discriminate.
    + assert (pixel_to_uint8 h F32.one = 255) as -> by (vm_compute; reflexivity). lia.
    + rewrite !pixel_closed_form by assumption.
      destruct (valid_mantissa m e Hb) as [Hm Hemin].
      destruct (valid_mantissa m' e' Hb') as [Hm' Hemin'].
      apply byte_of_mono; try assumption; try lia.
      apply leb_value; try assumption; lia.
Qed.

Lemma pixel_to_uint8_monotone_witness :
  pixel_to_uint8 Sample.host Sample.f0_3125 <= pixel_to_uint8 Sample.host Scenario.f0_5.
Proof.
  apply (pixel_to_uint8_monotone Sample.host Sample.f0_3125 Scenario.f0_5); reflexivity.
Defined.

(** ** [load_glTFCompL_module] and [sys.path] *)

(** X17. Loading the backend puts the add-on's folder on [sys.path]
    before the import runs and leaves it there, whether the import
    succeeds or not: the folder is added in front only when it is absent,
    the entries already there keep their order, a path without
    repetition stays without repetition, and a second call changes
    nothing. *)
Theorem load_module_sys_path folderpath import_glTFCompL sys_path :
  let '(outcome, sys_path') :=
    Loader.load_glTFCompL_module folderpath import_glTFCompL sys_path in
  outcome = import_glTFCompL sys_path' /\
  folderpath ∈ sys_path' /\
  (sys_path' = sys_path \/
   ((folderpath ∉ sys_path) /\ sys_path' = folderpath :: sys_path)) /\
  (NoDup sys_path -> NoDup sys_path') /\
  snd (Loader.load_glTFCompL_module folderpath import_glTFCompL sys_path') = sys_path'.
Proof.
  unfold Loader.load_glTFCompL_module. cbn [snd].
  destruct (decide (folderpath ∈ sys_path)) as [Hin|Hout].
  - rewrite !(bool_decide_eq_true_2 _ Hin). repeat split; auto.
  - rewrite (bool_decide_eq_false_2 _ Hout).
    assert (folderpath ∈ folderpath :: sys_path) as Hin by left.
    rewrite (bool_decide_eq_true_2 _ Hin). repeat split; auto.
    intros Hnd. constructor; assumption.
Qed.

Lemma load_module_sys_path_witness :
  NoDup (snd (Loader.load_glTFCompL_module "/addons/glTFcomp/scripts"
                (fun _ => Raise (ImportError "No module named 'glTFCompL'"))
                ["/usr/lib/python3"; "/addons/modules"])).
Proof.
  apply (proj1 (proj2 (proj2 (proj2
    (load_module_sys_path "/addons/glTFcomp/scripts"
       (fun _ => Raise (ImportError "No module named 'glTFCompL'"))
       ["/usr/lib/python3"; "/addons/modules"]))))).
  apply NoDup_cons_2; [|apply NoDup_singleton].
  intros Hin. apply list_elem_of_singleton in Hin. discriminate.
Defined.

(** ** [register] and [unregister] *)

Lemma remove_first_snoc x l :
  x ∉ l -> Registration.remove_first x (l ++ [x]) = l.
Proof.
  induction l as [|y l IH]; intros Hx; cbn.
  - rewrite String.eqb_refl. reflexivity.
  - destruct (String.eqb_spec x y) as [->|Hne].
    + exfalso. apply Hx. left.
    + f_equal. apply IH. intros Hin. apply Hx. right. exact Hin.
Qed.

(** X18. Registering the add-on and then unregistering it leaves the
    host as it was: on a host where the operator class is not registered
    and the export menu does not hold the add-on's entry, [register]
    succeeds and puts both in place, a second [register] raises at the
    class registration without adding a second menu entry, and
    [unregister] succeeds and gives back the classes and the menu as they
    were before [register]. *)
Theorem unregister_undoes_register r :
  Registration.EXPORT_SCENE_OT_compgltf ∉ Registration.classes r ->
  Registration.menu_func_export ∉ Registration.file_export_menu r ->
  exists r',
    Registration.register r = (None, r') /\
    Registration.EXPORT_SCENE_OT_compgltf ∈ Registration.classes r' /\
    Registration.menu_func_export ∈ Registration.file_export_menu r' /\
    (exists e, Registration.register r' = (Some e, r')) /\
    Registration.unregister r' = (None, r).
Proof.
  intros Hcls Hmenu. unfold Registration.register at 1, Registration.register_class at 1.
  rewrite (bool_decide_eq_false_2 _ Hcls). eexists. split; [reflexivity|].
  cbn [Registration.menu_append Registration.classes Registration.file_export_menu].
  assert (Registration.EXPORT_SCENE_OT_compgltf ∈
            Registration.classes r ++ [Registration.EXPORT_SCENE_OT_compgltf]) as Hin
    by (apply elem_of_app; right; left).
  split; [exact Hin|]. split; [apply elem_of_app; right; left|]. split.
  - unfold Registration.register, Registration.register_class.
    cbn [Registration.classes]. rewrite (bool_decide_eq_true_2 _ Hin).
    eexists. reflexivity.
  - unfold Registration.unregister, Registration.unregister_class,
      Registration.menu_remove.
    cbn. rewrite (bool_decide_eq_true_2 _ Hin).
    rewrite !remove_first_snoc by assumption. destruct r; reflexivity.
Qed.

Lemma unregister_undoes_register_witness :
  exists r',
    Registration.register Scenario.other_addon = (None, r') /\
    Registration.EXPORT_SCENE_OT_compgltf ∈ Registration.classes r' /\
    Registration.menu_func_export ∈ Registration.file_export_menu r' /\
    (exists e, Registration.register r' = (Some e, r')) /\
    Registration.unregister r' = (None, Scenario.other_addon).
Proof.
  apply (unregister_undoes_register Scenario.other_addon).
  - intros Hin. apply list_elem_of_singleton in Hin. discriminate.
  - intros Hin. apply list_elem_of_singleton in Hin. discriminate.
Defined.
